(** * FinancialCalculator: a shallow embedding of
    [src/utils/financialCalculations.ts] and its properties.

    Numbers.  A JavaScript [number] is modelled as an exact rational [Q]:
    every value is finite and arithmetic does not round.  Consequently
    equalities between computed numbers are stated with [==] ([Qeq]), and a
    comparison of running sums is the comparison of the exact sums.
    A division by zero, which JavaScript resolves to an infinity or to NaN,
    is outside [Q] ([Qdiv] resolves it to [0]); no proof below about a
    [Q]-valued function uses the value of such a division.  The IRR solver
    divides by powers of [1 + rate] at iterates that can land on -1 exactly,
    so the solver computes over [Number.t], the rationals extended by the
    two infinities and NaN with the IEEE 754 rules for them.

    Integers.  [projectTimeline] is an integer of either sign ([Z]) and the
    Monte Carlo iteration count is a natural number. *)

From Stdlib Require Import QArith Qabs Qround Qpower ZArith List Bool Lia Lqa.
From Stdlib Require Import Sorted Permutation.
Import ListNotations.

Open Scope Q_scope.

(** ** JavaScript primitives used by the calculator *)

Module JS.

(** [a < b] on numbers. *)
Definition Qlt_bool (a b : Q) : bool := negb (Qle_bool b a).

(** [x || 0] where [x] is the result of an indexed read: [undefined]
    (index out of range) and [0] are the falsy cases. *)
Definition or_zero (x : option Q) : Q :=
  match x with
  | Some v => if Qeq_bool v 0 then 0 else v
  | None => 0
  end.

(** [a[i]] for an integer index of either sign. *)
Definition index (a : list Q) (i : Z) : option Q :=
  if (i <? 0)%Z then None else nth_error a (Z.to_nat i).

(** [a[i] = v].  In range the element is replaced, at [i = a.length] the
    array grows by one.  (For [i > a.length] JavaScript leaves holes; the
    calculator never stores there, see [fcf_loop_shape].) *)
Definition store (a : list Q) (i : nat) (v : Q) : list Q :=
  firstn i a ++ v :: skipn (S i) a.

(** [Math.pow(x, n)] for a non-negative integer exponent. *)
Definition pow (x : Q) (n : nat) : Q := x ^ Z.of_nat n.

(** A loop or array index used as a number. *)
Definition num (n : nat) : Q := inject_Z (Z.of_nat n).

(** [a.reduce((acc, x, index) => f(acc, x, index), init)]. *)
Fixpoint reduce_from {A B : Type} (f : B -> A -> nat -> B)
         (a : list A) (index : nat) (acc : B) : B :=
  match a with
  | [] => acc
  | x :: a' => reduce_from f a' (S index) (f acc x index)
  end.

Definition reduce {A B : Type} (f : B -> A -> nat -> B) (a : list A) (init : B) : B :=
  reduce_from f a 0%nat init.

(** [a.map((x, index) => f(x, index))]. *)
Fixpoint map_from {A B : Type} (f : A -> nat -> B) (a : list A) (index : nat) : list B :=
  match a with
  | [] => []
  | x :: a' => f x index :: map_from f a' (S index)
  end.

Definition mapi {A B : Type} (f : A -> nat -> B) (a : list A) : list B :=
  map_from f a 0%nat.

(** [for (let year = 1; year <= timeline; year++) body], threading the
    variables the body updates. *)
Definition for_years {S : Type} (timeline : Z) (body : nat -> S -> S) (s : S) : S :=
  fold_left (fun s year => body year s) (seq 1 (Z.to_nat timeline)) s.

(** [a.sort((x, y) => x - y)]: ECMAScript requires the sort to be stable,
    and for this comparator the stable ascending arrangement is unique; it
    is computed here by insertion from the right. *)
Fixpoint insert (x : Q) (a : list Q) : list Q :=
  match a with
  | [] => [x]
  | y :: a' => if Qle_bool (x - y) 0 then x :: y :: a' else y :: insert x a'
  end.

Fixpoint sort (a : list Q) : list Q :=
  match a with
  | [] => []
  | x :: a' => insert x (sort a')
  end.

End JS.

(** ** Numbers of the IRR solver

    Exact rationals extended by [Infinity], [-Infinity] and [NaN], with the
    IEEE 754 rules for these values; finite arithmetic stays exact.  Zero
    is unsigned and counts as [+0] when it divides: in the solver a zero
    divisor is always [Math.pow(1 + rate, n)] at [rate = -1], which is
    [+0]. *)

Module Number.

Inductive t :=
| Finite (q : Q)
| PlusInfinity
| MinusInfinity
| NaN.

Definition add (a b : t) : t :=
  match a, b with
  | NaN, _ | _, NaN => NaN
  | Finite x, Finite y => Finite (x + y)
  | PlusInfinity, MinusInfinity | MinusInfinity, PlusInfinity => NaN
  | PlusInfinity, _ | _, PlusInfinity => PlusInfinity
  | MinusInfinity, _ | _, MinusInfinity => MinusInfinity
  end.

Definition opp (a : t) : t :=
  match a with
  | Finite x => Finite (- x)
  | PlusInfinity => MinusInfinity
  | MinusInfinity => PlusInfinity
  | NaN => NaN
  end.

Definition sub (a b : t) : t := add a (opp b).

(** [a / b]: [0 / 0] is NaN, any other finite value over zero is the
    infinity of its sign, a finite value over an infinity is zero, an
    infinity over an infinity is NaN. *)
Definition div (a b : t) : t :=
  match a, b with
  | NaN, _ | _, NaN => NaN
  | Finite x, Finite y =>
      if Qeq_bool y 0 then
        if Qeq_bool x 0 then NaN
        else if JS.Qlt_bool 0 x then PlusInfinity else MinusInfinity
      else Finite (x / y)
  | Finite _, _ => Finite 0
  | PlusInfinity, Finite y => if JS.Qlt_bool y 0 then MinusInfinity else PlusInfinity
  | MinusInfinity, Finite y => if JS.Qlt_bool y 0 then PlusInfinity else MinusInfinity
  | _, _ => NaN
  end.

(** [Math.abs(a)] *)
Definition abs (a : t) : t :=
  match a with
  | Finite x => Finite (Qabs x)
  | PlusInfinity | MinusInfinity => PlusInfinity
  | NaN => NaN
  end.

(** [a < b]: false whenever an operand is NaN. *)
Definition ltb (a b : t) : bool :=
  match a, b with
  | NaN, _ | _, NaN => false
  | Finite x, Finite y => JS.Qlt_bool x y
  | _, MinusInfinity => false
  | MinusInfinity, _ => true
  | PlusInfinity, _ => false
  | Finite _, PlusInfinity => true
  end.

(** [Math.pow(a, n)] for a non-negative integer exponent: 1 for [n = 0]
    whatever [a] is, NaN included. *)
Definition pow (a : t) (n : nat) : t :=
  match n with
  | O => Finite 1
  | S _ =>
      match a with
      | Finite x => Finite (JS.pow x n)
      | PlusInfinity => PlusInfinity
      | MinusInfinity => if Nat.even n then PlusInfinity else MinusInfinity
      | NaN => NaN
      end
  end.


End Number.

Coercion Number.Finite : Q >-> Number.t.

(** ** Data model ([src/types/financial.ts]) *)

Record ProjectParameters := {
  initialInvestment : Q;
  projectTimeline : Z;
  annualRevenues : list Q;
  operatingCosts : list Q;
  taxRate : Q;
  discountRate : Q;
  depreciationRate : Q;
  workingCapital : Q;
  terminalGrowthRate : Q;
  terminalValue : Q
}.

Record FinancialMetrics := {
  npv : Q;
  irr : Number.t;
  paybackPeriod : Q;
  roi : Q;
  ebitdaMargin : Q;
  freeCashFlows : list Q;
  cumulativeCashFlows : list Q;
  presentValues : list Q
}.

Record ScenarioAnalysis := {
  bestCase : FinancialMetrics;
  baseCase : FinancialMetrics;
  worstCase : FinancialMetrics
}.

(** [{...params, annualRevenues: r, operatingCosts: c, discountRate: d}] *)
Definition with_inputs (params : ProjectParameters) (r c : list Q) (d : Q) : ProjectParameters :=
  {| initialInvestment := initialInvestment params;
     projectTimeline := projectTimeline params;
     annualRevenues := r;
     operatingCosts := c;
     taxRate := taxRate params;
     discountRate := d;
     depreciationRate := depreciationRate params;
     workingCapital := workingCapital params;
     terminalGrowthRate := terminalGrowthRate params;
     terminalValue := terminalValue params |}.

(** ** Valuation: NPV, IRR, payback, ratios *)

Definition calculateNPV (cashFlows : list Q) (discountRate : Q) : Q :=
  JS.reduce (fun npv cashFlow index => npv + cashFlow / JS.pow (1 + discountRate) index)
            cashFlows 0.

Definition maxIterations : nat := 100.
Definition tolerance : Q := 0.0000001.
Definition default_guess : Q := 0.1.

(** [calculateNPV] as the solver calls it: the rate is an estimate of the
    solver, which may be -1, infinite or NaN. *)
Definition calculateNPV_at (cashFlows : list Q) (rate : Number.t) : Number.t :=
  JS.reduce (fun npv (cashFlow : Q) index =>
               Number.add npv (Number.div cashFlow (Number.pow (Number.add 1 rate) index)))
            cashFlows (Number.Finite 0).

Definition irr_derivative (cashFlows : list Q) (rate : Number.t) : Number.t :=
  JS.reduce (fun sum (cashFlow : Q) index =>
               Number.sub sum
                 (Number.div (JS.num index * cashFlow)
                             (Number.pow (Number.add 1 rate) (index + 1))))
            cashFlows (Number.Finite 0).

(** The [for] loop of [calculateIRR] with [remaining] iterations left.  Next
    to the rate it returns the derivatives by which [npv] was divided, in
    order: one entry per execution of [rate - npv / derivative]. *)
Fixpoint irr_loop (remaining : nat) (cashFlows : list Q) (rate : Number.t)
  : Number.t * list Number.t :=
  match remaining with
  | O => (rate, [])
  | S remaining' =>
      let npv := calculateNPV_at cashFlows rate in
      let derivative := irr_derivative cashFlows rate in
      if Number.ltb (Number.abs derivative) tolerance then (rate, [])
      else
        let newRate := Number.sub rate (Number.div npv derivative) in
        if Number.ltb (Number.abs (Number.sub newRate rate)) tolerance
        then (rate, [derivative])
        else
          let (r, divisors) := irr_loop remaining' cashFlows newRate in
          (r, derivative :: divisors)
  end.

Definition calculateIRR (cashFlows : list Q) (guess : Number.t) : Number.t :=
  fst (irr_loop maxIterations cashFlows guess).

(** The loop of [calculatePaybackPeriod]: [rest] is [cashFlows] from index
    [i] on.  The running sum is the exact sum of the flows seen so far. *)
Fixpoint payback_loop (cashFlows rest : list Q) (i : nat) (cumulativeCashFlow : Q) : Q :=
  match rest with
  | [] => JS.num (length cashFlows)
  | flow :: rest' =>
      let cumulativeCashFlow := cumulativeCashFlow + flow in
      if Qle_bool 0 cumulativeCashFlow then
        if Nat.eqb i 0 then 0
        else
          let previousCumulative := cumulativeCashFlow - flow in
          JS.num i - 1 + Qabs previousCumulative / flow
      else payback_loop cashFlows rest' (S i) cumulativeCashFlow
  end.

Definition calculatePaybackPeriod (cashFlows : list Q) : Q :=
  payback_loop cashFlows cashFlows 0%nat 0.

Definition calculateROI (totalGains initialInvestment : Q) : Q :=
  if Qeq_bool initialInvestment 0 then 0
  else (totalGains / initialInvestment) * 100.

Definition calculateEBITDAMargin (ebitda revenue : Q) : Q :=
  if Qeq_bool revenue 0 then 0
  else (ebitda / revenue) * 100.

(** ** Free cash flows and metrics *)

(** [annualRevenues[year - 1] || 0] and [operatingCosts[year - 1] || 0]. *)
Definition revenue_of (params : ProjectParameters) (year : nat) : Q :=
  JS.or_zero (JS.index (annualRevenues params) (Z.of_nat year - 1)).

Definition operatingCost_of (params : ProjectParameters) (year : nat) : Q :=
  JS.or_zero (JS.index (operatingCosts params) (Z.of_nat year - 1)).

(** The locals of one pass of the yearly loop of [calculateFreeCashFlows]. *)
Record YearLines := {
  yl_depreciation : Q;
  yl_ebit : Q;
  yl_tax : Q;
  yl_nopat : Q;
  yl_freeCashFlow : Q
}.

Definition fcf_year (params : ProjectParameters) (year : nat) : YearLines :=
  let revenue := revenue_of params year in
  let operatingCost := operatingCost_of params year in
  let depreciation := initialInvestment params * depreciationRate params in
  let ebit := revenue - operatingCost - depreciation in
  let tax := if JS.Qlt_bool 0 ebit then ebit * taxRate params else 0 in
  let nopat := ebit - tax in
  let freeCashFlow := nopat + depreciation in
  {| yl_depreciation := depreciation;
     yl_ebit := ebit;
     yl_tax := tax;
     yl_nopat := nopat;
     yl_freeCashFlow := freeCashFlow |}.

(** Body of the loop: [cashFlows[year] = freeCashFlow]. *)
Definition fcf_body (params : ProjectParameters) (year : nat) (cashFlows : list Q) : list Q :=
  JS.store cashFlows year (yl_freeCashFlow (fcf_year params year)).

Definition calculateFreeCashFlows (params : ProjectParameters) : list Q :=
  let cashFlows := JS.store [] 0 (- initialInvestment params - workingCapital params) in
  let cashFlows := JS.for_years (projectTimeline params) (fcf_body params) cashFlows in
  if (0 <? length cashFlows)%nat then
    let last := (length cashFlows - 1)%nat in
    JS.store cashFlows last
             (nth last cashFlows 0 + (terminalValue params + workingCapital params))
  else cashFlows.

Definition sum_list (a : list Q) : Q :=
  JS.reduce (fun sum x _ => sum + x) a 0.

(** One pass of the reducer that builds [cumulativeCashFlows]:
    [acc[index] = (acc[index - 1] || 0) + flow]. *)
Definition cumulative_step (acc : list Q) (flow : Q) (index : nat) : list Q :=
  JS.store acc index (JS.or_zero (JS.index acc (Z.of_nat index - 1)) + flow).

Definition calculateMetrics (params : ProjectParameters) : FinancialMetrics :=
  let freeCashFlows := calculateFreeCashFlows params in
  let npv := calculateNPV freeCashFlows (discountRate params) in
  let irr := calculateIRR freeCashFlows default_guess in
  let paybackPeriod := calculatePaybackPeriod freeCashFlows in
  let totalRevenue := sum_list (annualRevenues params) in
  let totalCosts := sum_list (operatingCosts params) in
  let totalGains := totalRevenue - totalCosts - initialInvestment params in
  let roi := calculateROI totalGains (initialInvestment params) in
  let avgRevenue := totalRevenue / inject_Z (projectTimeline params) in
  let avgEbitda := (totalRevenue - totalCosts) / inject_Z (projectTimeline params) in
  let ebitdaMargin := calculateEBITDAMargin avgEbitda avgRevenue in
  let cumulativeCashFlows :=
    JS.reduce cumulative_step freeCashFlows [] in
  let presentValues :=
    JS.mapi (fun flow index => flow / JS.pow (1 + discountRate params) index) freeCashFlows in
  {| npv := npv;
     irr := irr;
     paybackPeriod := paybackPeriod;
     roi := roi;
     ebitdaMargin := ebitdaMargin;
     freeCashFlows := freeCashFlows;
     cumulativeCashFlows := cumulativeCashFlows;
     presentValues := presentValues |}.

(** ** Scenario analysis *)

(** Best case: 20% higher revenues, 10% lower costs. *)
Definition bestCaseParams (baseParams : ProjectParameters) : ProjectParameters :=
  with_inputs baseParams
              (map (fun rev => rev * 1.2) (annualRevenues baseParams))
              (map (fun cost => cost * 0.9) (operatingCosts baseParams))
              (discountRate baseParams).

(** Worst case: 20% lower revenues, 15% higher costs. *)
Definition worstCaseParams (baseParams : ProjectParameters) : ProjectParameters :=
  with_inputs baseParams
              (map (fun rev => rev * 0.8) (annualRevenues baseParams))
              (map (fun cost => cost * 1.15) (operatingCosts baseParams))
              (discountRate baseParams).

Definition calculateScenarioAnalysis (baseParams : ProjectParameters) : ScenarioAnalysis :=
  {| bestCase := calculateMetrics (bestCaseParams baseParams);
     baseCase := calculateMetrics baseParams;
     worstCase := calculateMetrics (worstCaseParams baseParams) |}.

(** How a call ends: the TypeScript source has no [throw]; every entry
    point of the calculator returns. *)
Inductive CalculatorError := InvalidParameterError.

Inductive Outcome (A : Type) :=
| Returned (value : A)
| Thrown (error : CalculatorError).

Arguments Returned {A} value.
Arguments Thrown {A} error.

(** The engine entry point [computeMetrics] is [calculateMetrics] as its
    callers observe it. *)
Definition computeMetrics (params : ProjectParameters) : Outcome FinancialMetrics :=
  Returned (calculateMetrics params).

(** ** Monte Carlo simulation

    [runMonteCarloSimulation] builds two arrays, sorts one of them with
    [Array.prototype.sort] (which sorts the receiver in place and returns
    it) and returns both inside the result object.  Arrays are therefore
    modelled as references into a store, and [Math.random()] as the next
    value of an ambient source. *)

Module MC.

Definition ref := nat.

Record World := {
  arrays : list (list Q);        (* the store: arrays of finite numbers *)
  rates : list (list Number.t);  (* the store: arrays of solver results *)
  drawn : nat                    (* calls of Math.random() made so far *)
}.

Definition M (A : Type) : Type := World -> A * World.

Definition ret {A : Type} (a : A) : M A := fun w => (a, w).

Definition bind {A B : Type} (m : M A) (k : A -> M B) : M B :=
  fun w => let (a, w') := m w in k a w'.

Notation "x <- m ;; k" := (bind m (fun x => k))
  (at level 61, m at next level, right associativity).
Notation "m ;;; k" := (bind m (fun _ => k))
  (at level 61, right associativity).

Definition contents (w : World) (r : ref) : list Q := nth r (arrays w) [].

Definition rate_contents (w : World) (r : ref) : list Number.t := nth r (rates w) [].

Fixpoint set_nth {A : Type} (l : list A) (n : nat) (a : A) : list A :=
  match l, n with
  | [], _ => []
  | _ :: l', O => a :: l'
  | x :: l', S n' => x :: set_nth l' n' a
  end.

(** [[]] and [a.filter(..)] allocate a fresh array. *)
Definition new_array (a : list Q) : M ref :=
  fun w => (length (arrays w),
            {| arrays := arrays w ++ [a]; rates := rates w; drawn := drawn w |}).

Definition read (r : ref) : M (list Q) := fun w => (contents w r, w).

Definition write (r : ref) (a : list Q) : M unit :=
  fun w => (tt, {| arrays := set_nth (arrays w) r a; rates := rates w; drawn := drawn w |}).

(** [r.push(v)] *)
Definition push (r : ref) (v : Q) : M unit :=
  a <- read r ;; write r (a ++ [v]).

(** The same for an array of solver results: [[]] and [r.push(v)]. *)
Definition new_rate_array (a : list Number.t) : M ref :=
  fun w => (length (rates w),
            {| arrays := arrays w; rates := rates w ++ [a]; drawn := drawn w |}).

Definition push_rate (r : ref) (v : Number.t) : M unit :=
  fun w => (tt, {| arrays := arrays w;
                   rates := set_nth (rates w) r (rate_contents w r ++ [v]);
                   drawn := drawn w |}).

(** [r.sort((a, b) => a - b)]: sorts the array [r] itself and returns [r]. *)
Definition sort (r : ref) : M ref :=
  a <- read r ;; write r (JS.sort a) ;;; ret r.

(** [r.filter(p)] *)
Definition filter (r : ref) (p : Q -> bool) : M ref :=
  a <- read r ;; new_array (List.filter p a).

(** [r.length] *)
Definition length_of (r : ref) : M nat :=
  a <- read r ;; ret (length a).

(** [r.reduce((acc, x) => f(acc, x), init)] *)
Definition reduce (r : ref) (f : Q -> Q -> Q) (init : Q) : M Q :=
  a <- read r ;; ret (JS.reduce (fun acc x _ => f acc x) a init).

(** [r[i]], [undefined] out of range. *)
Definition get (r : ref) (i : Z) : M (option Q) :=
  a <- read r ;; ret (JS.index a i).

(** [for (let i = 0; i < iterations; i++) body] *)
Fixpoint for_iterations (iterations : nat) (body : M unit) : M unit :=
  match iterations with
  | O => ret tt
  | S n => body ;;; for_iterations n body
  end.

Record Percentiles := {
  p10 : option Q;
  p25 : option Q;
  p50 : option Q;
  p75 : option Q;
  p90 : option Q
}.

(** The object returned by [runMonteCarloSimulation]: the two
    distributions are references to the arrays built by the loop. *)
Record ResultObject := {
  npvDistribution_ref : ref;
  irrDistribution_ref : ref;
  probabilityOfPositiveNPV_val : Q;
  expectedNPV_val : Q;
  npvPercentiles_val : Percentiles
}.

Section WithRandomSource.

(** [random k] is the value of the [k]-th call of [Math.random()]. *)
Variable random : nat -> Q.

Definition Math_random : M Q :=
  fun w => (random (drawn w),
            {| arrays := arrays w; rates := rates w; drawn := S (drawn w) |}).

(** Body of the simulation loop. *)
Definition iteration (params : ProjectParameters) (npvResults irrResults : ref) : M unit :=
  u1 <- Math_random ;;
  let revenueVariation := 0.8 + u1 * 0.4 in
  u2 <- Math_random ;;
  let costVariation := 0.85 + u2 * 0.3 in
  u3 <- Math_random ;;
  let discountVariation := discountRate params * (0.9 + u3 * 0.2) in
  let simulationParams :=
    with_inputs params
                (map (fun rev => rev * revenueVariation) (annualRevenues params))
                (map (fun cost => cost * costVariation) (operatingCosts params))
                discountVariation in
  let metrics := calculateMetrics simulationParams in
  push npvResults (npv metrics) ;;;
  push_rate irrResults (irr metrics).

Definition simulation (params : ProjectParameters) (iterations : nat) : M ResultObject :=
  npvResults <- new_array [] ;;
  irrResults <- new_rate_array [] ;;
  for_iterations iterations (iteration params npvResults irrResults) ;;;
  sortedNPV <- sort npvResults ;;
  positive <- filter npvResults (fun npv => JS.Qlt_bool 0 npv) ;;
  count <- length_of positive ;;
  let probabilityOfPositiveNPV := JS.num count / JS.num iterations in
  total <- reduce npvResults (fun sum npv => sum + npv) 0 ;;
  let expectedNPV := total / JS.num iterations in
  q10 <- get sortedNPV (Qfloor (JS.num iterations * 0.1)) ;;
  q25 <- get sortedNPV (Qfloor (JS.num iterations * 0.25)) ;;
  q50 <- get sortedNPV (Qfloor (JS.num iterations * 0.5)) ;;
  q75 <- get sortedNPV (Qfloor (JS.num iterations * 0.75)) ;;
  q90 <- get sortedNPV (Qfloor (JS.num iterations * 0.9)) ;;
  ret {| npvDistribution_ref := npvResults;
         irrDistribution_ref := irrResults;
         probabilityOfPositiveNPV_val := probabilityOfPositiveNPV;
         expectedNPV_val := expectedNPV;
         npvPercentiles_val :=
           {| p10 := q10; p25 := q25; p50 := q50; p75 := q75; p90 := q90 |} |}.

End WithRandomSource.

Definition empty_world : World := {| arrays := []; rates := []; drawn := 0 |}.

End MC.

(** What the caller reads from the returned object: the arrays behind the
    two references as they are when the call returns. *)
Record MonteCarloResult := {
  npvDistribution : list Q;
  irrDistribution : list Number.t;
  probabilityOfPositiveNPV : Q;
  expectedNPV : Q;
  npvPercentiles : MC.Percentiles
}.

Definition runMonteCarloSimulation (random : nat -> Q) (params : ProjectParameters)
           (iterations : nat) : MonteCarloResult :=
  let (obj, w) := MC.simulation random params iterations MC.empty_world in
  {| npvDistribution := MC.contents w (MC.npvDistribution_ref obj);
     irrDistribution := MC.rate_contents w (MC.irrDistribution_ref obj);
     probabilityOfPositiveNPV := MC.probabilityOfPositiveNPV_val obj;
     expectedNPV := MC.expectedNPV_val obj;
     npvPercentiles := MC.npvPercentiles_val obj |}.

(** The parameters of iteration [i] and the metrics recorded for it: the
    iteration makes the draws [3i], [3i+1] and [3i+2]. *)
Definition simulationParams_of (random : nat -> Q) (params : ProjectParameters) (i : nat)
  : ProjectParameters :=
  let revenueVariation := 0.8 + random (3 * i)%nat * 0.4 in
  let costVariation := 0.85 + random (3 * i + 1)%nat * 0.3 in
  let discountVariation := discountRate params * (0.9 + random (3 * i + 2)%nat * 0.2) in
  with_inputs params
              (map (fun rev => rev * revenueVariation) (annualRevenues params))
              (map (fun cost => cost * costVariation) (operatingCosts params))
              discountVariation.

Definition recorded (random : nat -> Q) (params : ProjectParameters) (i : nat)
  : FinancialMetrics :=
  calculateMetrics (simulationParams_of random params i).

(** ** Financial statements *)

Module IncomeStatement.
Record t := {
  year : nat;
  revenue : Q;
  costOfGoodsSold : Q;
  grossProfit : Q;
  operatingExpenses : Q;
  ebitda : Q;
  depreciation : Q;
  ebit : Q;
  interestExpense : Q;
  ebt : Q;
  taxExpense : Q;
  netIncome : Q;
  ebitdaMargin : Q;
  netProfitMargin : Q
}.
End IncomeStatement.

Module BalanceSheet.
Record t := {
  year : nat;
  cashAndEquivalents : Q;
  accountsReceivable : Q;
  inventory : Q;
  prepaidExpenses : Q;
  totalCurrentAssets : Q;
  propertyPlantEquipment : Q;
  accumulatedDepreciation : Q;
  netPPE : Q;
  totalAssets : Q;
  accountsPayable : Q;
  accruedExpenses : Q;
  shortTermDebt : Q;
  totalCurrentLiabilities : Q;
  longTermDebt : Q;
  totalLiabilities : Q;
  commonStock : Q;
  retainedEarnings : Q;
  totalEquity : Q;
  currentRatio : Q;
  debtToEquityRatio : Q;
  returnOnEquity : Q
}.
End BalanceSheet.

Module CashFlowStatement.
Record t := {
  year : nat;
  netIncome : Q;
  depreciation : Q;
  changesInWorkingCapital : Q;
  netOperatingCashFlow : Q;
  capitalExpenditures : Q;
  netInvestingCashFlow : Q;
  debtIssuance : Q;
  debtRepayment : Q;
  dividends : Q;
  netFinancingCashFlow : Q;
  netCashFlow : Q;
  beginningCashBalance : Q;
  endingCashBalance : Q
}.
End CashFlowStatement.

Record ReportSummary := {
  totalRevenue : Q;
  totalNetIncome : Q;
  totalAssets : Q;
  totalLiabilities : Q;
  totalEquity : Q;
  cumulativeCashFlow : Q
}.

Record FinancialReports := {
  incomeStatements : list IncomeStatement.t;
  balanceSheets : list BalanceSheet.t;
  cashFlowStatements : list CashFlowStatement.t;
  summary : ReportSummary
}.

Definition income_body (params : ProjectParameters) (year : nat)
           (statements : list IncomeStatement.t) : list IncomeStatement.t :=
  let revenue := revenue_of params year in
  let operatingCost := operatingCost_of params year in
  let depreciation := initialInvestment params * depreciationRate params in
  let costOfGoodsSold := operatingCost * 0.6 in
  let operatingExpenses := operatingCost * 0.4 in
  let grossProfit := revenue - costOfGoodsSold in
  let ebitda := revenue - operatingCost in
  let ebit := ebitda - depreciation in
  let interestExpense := initialInvestment params * 0.1 in
  let ebt := ebit - interestExpense in
  let taxExpense := if JS.Qlt_bool 0 ebt then ebt * taxRate params else 0 in
  let netIncome := ebt - taxExpense in
  statements ++
  [ {| IncomeStatement.year := year;
       IncomeStatement.revenue := revenue;
       IncomeStatement.costOfGoodsSold := costOfGoodsSold;
       IncomeStatement.grossProfit := grossProfit;
       IncomeStatement.operatingExpenses := operatingExpenses;
       IncomeStatement.ebitda := ebitda;
       IncomeStatement.depreciation := depreciation;
       IncomeStatement.ebit := ebit;
       IncomeStatement.interestExpense := interestExpense;
       IncomeStatement.ebt := ebt;
       IncomeStatement.taxExpense := taxExpense;
       IncomeStatement.netIncome := netIncome;
       IncomeStatement.ebitdaMargin :=
         if JS.Qlt_bool 0 revenue then (ebitda / revenue) * 100 else 0;
       IncomeStatement.netProfitMargin :=
         if JS.Qlt_bool 0 revenue then (netIncome / revenue) * 100 else 0 |} ].

Definition generateIncomeStatements (params : ProjectParameters) : list IncomeStatement.t :=
  JS.for_years (projectTimeline params) (income_body params) [].

(** The variables of [generateBalanceSheets] that its loop updates. *)
Record BalanceState := {
  bs_balanceSheets : list BalanceSheet.t;
  bs_retainedEarnings : Q;
  bs_accumulatedDepreciation : Q;
  bs_cashBalance : Q
}.

Definition balance_body (params : ProjectParameters) (year : nat) (s : BalanceState)
  : BalanceState :=
  let revenue := revenue_of params year in
  let operatingCost := operatingCost_of params year in
  let depreciation := initialInvestment params * depreciationRate params in
  let netIncome := revenue - operatingCost - depreciation in
  let retainedEarnings := bs_retainedEarnings s + netIncome in
  let accumulatedDepreciation := bs_accumulatedDepreciation s + depreciation in
  let cashBalance := bs_cashBalance s + (netIncome + depreciation) in
  let accountsReceivable := revenue * 0.15 in
  let inventory := operatingCost * 0.2 in
  let prepaidExpenses := operatingCost * 0.05 in
  let accountsPayable := operatingCost * 0.25 in
  let accruedExpenses := operatingCost * 0.1 in
  let totalCurrentAssets := cashBalance + accountsReceivable + inventory + prepaidExpenses in
  let netPPE := initialInvestment params - accumulatedDepreciation in
  let totalAssets := totalCurrentAssets + netPPE in
  let totalCurrentLiabilities := accountsPayable + accruedExpenses in
  let longTermDebt := initialInvestment params * 0.6 in
  let totalLiabilities := totalCurrentLiabilities + longTermDebt in
  let commonStock := initialInvestment params * 0.4 in
  let totalEquity := commonStock + retainedEarnings in
  {| bs_balanceSheets :=
       bs_balanceSheets s ++
       [ {| BalanceSheet.year := year;
            BalanceSheet.cashAndEquivalents := cashBalance;
            BalanceSheet.accountsReceivable := accountsReceivable;
            BalanceSheet.inventory := inventory;
            BalanceSheet.prepaidExpenses := prepaidExpenses;
            BalanceSheet.totalCurrentAssets := totalCurrentAssets;
            BalanceSheet.propertyPlantEquipment := initialInvestment params;
            BalanceSheet.accumulatedDepreciation := accumulatedDepreciation;
            BalanceSheet.netPPE := netPPE;
            BalanceSheet.totalAssets := totalAssets;
            BalanceSheet.accountsPayable := accountsPayable;
            BalanceSheet.accruedExpenses := accruedExpenses;
            BalanceSheet.shortTermDebt := 0;
            BalanceSheet.totalCurrentLiabilities := totalCurrentLiabilities;
            BalanceSheet.longTermDebt := longTermDebt;
            BalanceSheet.totalLiabilities := totalLiabilities;
            BalanceSheet.commonStock := commonStock;
            BalanceSheet.retainedEarnings := retainedEarnings;
            BalanceSheet.totalEquity := totalEquity;
            BalanceSheet.currentRatio :=
              if JS.Qlt_bool 0 totalCurrentLiabilities
              then totalCurrentAssets / totalCurrentLiabilities else 0;
            BalanceSheet.debtToEquityRatio :=
              if JS.Qlt_bool 0 totalEquity then totalLiabilities / totalEquity else 0;
            BalanceSheet.returnOnEquity :=
              if JS.Qlt_bool 0 totalEquity then (netIncome / totalEquity) * 100 else 0 |} ];
     bs_retainedEarnings := retainedEarnings;
     bs_accumulatedDepreciation := accumulatedDepreciation;
     bs_cashBalance := cashBalance |}.

Definition generateBalanceSheets (params : ProjectParameters) : list BalanceSheet.t :=
  bs_balanceSheets
    (JS.for_years (projectTimeline params) (balance_body params)
       {| bs_balanceSheets := [];
          bs_retainedEarnings := 0;
          bs_accumulatedDepreciation := 0;
          bs_cashBalance := workingCapital params |}).

(** The variables of [generateCashFlowStatements] that its loop updates. *)
Record CashFlowState := {
  cf_cashFlowStatements : list CashFlowStatement.t;
  cf_beginningCashBalance : Q
}.

(** The statement pushed by one pass of the loop of [generateCashFlowStatements]. *)
Definition cashflow_statement (params : ProjectParameters) (year : nat)
           (beginningCashBalance : Q) : CashFlowStatement.t :=
  let revenue := revenue_of params year in
  let operatingCost := operatingCost_of params year in
  let depreciation := initialInvestment params * depreciationRate params in
  let netIncome := revenue - operatingCost - depreciation in
  let accountsReceivable := revenue * 0.15 in
  let inventory := operatingCost * 0.2 in
  let accountsPayable := operatingCost * 0.25 in
  let changesInWorkingCapital := accountsReceivable + inventory - accountsPayable in
  let netOperatingCashFlow := netIncome + depreciation - changesInWorkingCapital in
  let capitalExpenditures :=
    if Nat.eqb year 1 then initialInvestment params else initialInvestment params * 0.05 in
  let netInvestingCashFlow := - capitalExpenditures in
  let debtIssuance := if Nat.eqb year 1 then initialInvestment params * 0.6 else 0 in
  let debtRepayment :=
    if Nat.ltb 1 year then debtIssuance / (inject_Z (projectTimeline params) - 1) else 0 in
  let dividends := if JS.Qlt_bool 0 netIncome then netIncome * 0.3 else 0 in
  let netFinancingCashFlow := debtIssuance - debtRepayment - dividends in
  let netCashFlow := netOperatingCashFlow + netInvestingCashFlow + netFinancingCashFlow in
  let endingCashBalance := beginningCashBalance + netCashFlow in
  {| CashFlowStatement.year := year;
     CashFlowStatement.netIncome := netIncome;
     CashFlowStatement.depreciation := depreciation;
     CashFlowStatement.changesInWorkingCapital := changesInWorkingCapital;
     CashFlowStatement.netOperatingCashFlow := netOperatingCashFlow;
     CashFlowStatement.capitalExpenditures := capitalExpenditures;
     CashFlowStatement.netInvestingCashFlow := netInvestingCashFlow;
     CashFlowStatement.debtIssuance := debtIssuance;
     CashFlowStatement.debtRepayment := debtRepayment;
     CashFlowStatement.dividends := dividends;
     CashFlowStatement.netFinancingCashFlow := netFinancingCashFlow;
     CashFlowStatement.netCashFlow := netCashFlow;
     CashFlowStatement.beginningCashBalance := beginningCashBalance;
     CashFlowStatement.endingCashBalance := endingCashBalance |}.

(** Body of the loop: push the statement, then
    [beginningCashBalance = endingCashBalance]. *)
Definition cashflow_body (params : ProjectParameters) (year : nat) (s : CashFlowState)
  : CashFlowState :=
  let statement := cashflow_statement params year (cf_beginningCashBalance s) in
  {| cf_cashFlowStatements := cf_cashFlowStatements s ++ [statement];
     cf_beginningCashBalance := CashFlowStatement.endingCashBalance statement |}.

Definition generateCashFlowStatements (params : ProjectParameters)
  : list CashFlowStatement.t :=
  cf_cashFlowStatements
    (JS.for_years (projectTimeline params) (cashflow_body params)
       {| cf_cashFlowStatements := [];
          cf_beginningCashBalance := workingCapital params |}).

(** [balanceSheets[balanceSheets.length - 1]?.field || 0] *)
Definition last_field (field : BalanceSheet.t -> Q) (balanceSheets : list BalanceSheet.t) : Q :=
  JS.or_zero (option_map field (nth_error balanceSheets (length balanceSheets - 1))).

Definition generateFinancialReports (params : ProjectParameters) : FinancialReports :=
  let incomeStatements := generateIncomeStatements params in
  let balanceSheets := generateBalanceSheets params in
  let cashFlowStatements := generateCashFlowStatements params in
  let totalRevenue :=
    JS.reduce (fun sum stmt _ => sum + IncomeStatement.revenue stmt) incomeStatements 0 in
  let totalNetIncome :=
    JS.reduce (fun sum stmt _ => sum + IncomeStatement.netIncome stmt) incomeStatements 0 in
  let totalAssets := last_field BalanceSheet.totalAssets balanceSheets in
  let totalLiabilities := last_field BalanceSheet.totalLiabilities balanceSheets in
  let totalEquity := last_field BalanceSheet.totalEquity balanceSheets in
  let cumulativeCashFlow :=
    JS.reduce (fun sum stmt _ => sum + CashFlowStatement.netCashFlow stmt)
              cashFlowStatements 0 in
  {| incomeStatements := incomeStatements;
     balanceSheets := balanceSheets;
     cashFlowStatements := cashFlowStatements;
     summary :=
       {| totalRevenue := totalRevenue;
          totalNetIncome := totalNetIncome;
          totalAssets := totalAssets;
          totalLiabilities := totalLiabilities;
          totalEquity := totalEquity;
          cumulativeCashFlow := cumulativeCashFlow |} |}.

Definition yearly_flows (params : ProjectParameters) : list Q :=
  map (fun year => yl_freeCashFlow (fcf_year params year))
      (seq 1 (Z.to_nat (projectTimeline params))).

Definition add_to_last (a : list Q) (v : Q) : list Q :=
  JS.store a (length a - 1) (nth (length a - 1) a 0 + v).

(** ** Concrete inputs used in the statements below *)

(** The worked scenario of the specification. *)
Definition scenario_params : ProjectParameters :=
  {| initialInvestment := 100000;
     projectTimeline := 1;
     annualRevenues := [150000];
     operatingCosts := [50000];
     taxRate := 0.25;
     discountRate := 0.10;
     depreciationRate := 0.20;
     workingCapital := 0;
     terminalGrowthRate := 0;
     terminalValue := 0 |}.



(** The beginning cash balance of year [k + 1] in
    [generateCashFlowStatements]: the working capital for the first year,
    the previous year's ending balance afterwards. *)
Fixpoint beginning_of (params : ProjectParameters) (k : nat) : Q :=
  match k with
  | O => workingCapital params
  | S k' =>
      CashFlowStatement.endingCashBalance
        (cashflow_statement params (S k') (beginning_of params k'))
  end.

(** The worked scenario extended to two years. *)
Definition two_year_params : ProjectParameters :=
  {| initialInvestment := 100000;
     projectTimeline := 2;
     annualRevenues := [150000; 150000];
     operatingCosts := [50000; 50000];
     taxRate := 0.25;
     discountRate := 0.10;
     depreciationRate := 0.20;
     workingCapital := 0;
     terminalGrowthRate := 0;
     terminalValue := 0 |}.

(** Random sources for the concrete Monte Carlo runs: every draw lies in
    [0, 1), as [Math.random()] guarantees. *)
Definition constant_source (u : Q) : nat -> Q := fun _ => u.

(** High draws for the first iteration, low draws afterwards. *)
Definition falling_source : nat -> Q :=
  fun k => if (k <? 3)%nat then 0.9 else 0.1.

(** Agrees with [constant_source 0.5] on the first three draws only. *)
Definition late_source : nat -> Q :=
  fun k => if (k <? 3)%nat then 0.5 else 0.7.

(** The documented domain of the parameters that [computeMetrics] is said
    to check. *)
Definition in_documented_domain (params : ProjectParameters) : Prop :=
  (1 <= projectTimeline params)%Z /\
  0 <= taxRate params <= 1 /\
  0 <= discountRate params <= 1 /\
  0 <= depreciationRate params <= 1 /\
  0 <= terminalGrowthRate params <= 0.1.

(** The worked scenario with a timeline of 0 years, and with a tax rate of
    150%. *)
Definition zero_timeline_params : ProjectParameters :=
  {| initialInvestment := 100000;
     projectTimeline := 0;
     annualRevenues := [150000];
     operatingCosts := [50000];
     taxRate := 0.25;
     discountRate := 0.10;
     depreciationRate := 0.20;
     workingCapital := 0;
     terminalGrowthRate := 0;
     terminalValue := 0 |}.

Definition high_tax_params : ProjectParameters :=
  {| initialInvestment := 100000;
     projectTimeline := 1;
     annualRevenues := [150000];
     operatingCosts := [50000];
     taxRate := 1.5;
     discountRate := 0.10;
     depreciationRate := 0.20;
     workingCapital := 0;
     terminalGrowthRate := 0;
     terminalValue := 0 |}.

(** A sequence extended with explicit zeros up to [n] entries, and the
    parameters with both sequences extended up to the timeline. *)
Definition pad_zeros (n : nat) (a : list Q) : list Q :=
  a ++ repeat 0 (n - length a).

Definition padded (params : ProjectParameters) : ProjectParameters :=
  with_inputs params
              (pad_zeros (Z.to_nat (projectTimeline params)) (annualRevenues params))
              (pad_zeros (Z.to_nat (projectTimeline params)) (operatingCosts params))
              (discountRate params).

(** ** The parameters form (component [ParametersForm])

    The form keeps the parameters as component state.  Its validation
    effect computes an object of error messages from the parameters, keyed
    by field name (and by [revenue_<index>] / [cost_<index>] for the yearly
    entries); its [addYear] and [removeYear] handlers compute the next
    parameters from the current ones. *)

From Stdlib Require String.

Module Form.

Import String.

(** The keys the validation stores under; [revenue_key i] and [cost_key i]
    stand for the template strings [revenue_${i}] and [cost_${i}]. *)
Inductive ErrorKey :=
| initialInvestment_key
| projectTimeline_key
| taxRate_key
| discountRate_key
| depreciationRate_key
| terminalGrowthRate_key
| revenue_key (index : nat)
| cost_key (index : nat).

Definition key_eqb (a b : ErrorKey) : bool :=
  match a, b with
  | initialInvestment_key, initialInvestment_key => true
  | projectTimeline_key, projectTimeline_key => true
  | taxRate_key, taxRate_key => true
  | discountRate_key, discountRate_key => true
  | depreciationRate_key, depreciationRate_key => true
  | terminalGrowthRate_key, terminalGrowthRate_key => true
  | revenue_key i, revenue_key j => Nat.eqb i j
  | cost_key i, cost_key j => Nat.eqb i j
  | _, _ => false
  end.

(** The object [errors: Record<string, string>], in insertion order. *)
Definition Errors := list (ErrorKey * string).

(** [errors[key] = message]: replaces the message of an existing key, adds
    the key otherwise. *)
Definition set_error (errors : Errors) (key : ErrorKey) (message : string) : Errors :=
  if existsb (fun entry => key_eqb key (fst entry)) errors
  then map (fun entry => if key_eqb key (fst entry) then (key, message) else entry) errors
  else errors ++ [(key, message)].

(** [Object.keys(errors)] *)
Definition keys (errors : Errors) : list ErrorKey := map fst errors.

(** The body of the validation effect. *)
Definition validate (params : ProjectParameters) : Errors :=
  let errors : Errors := [] in
  let errors :=
    if Qle_bool (initialInvestment params) 0
    then set_error errors initialInvestment_key
                   "Initial investment must be greater than 0"%string
    else errors in
  let errors :=
    if ((projectTimeline params <? 1) || (20 <? projectTimeline params))%Z
    then set_error errors projectTimeline_key
                   "Project timeline must be between 1 and 20 years"%string
    else errors in
  let errors :=
    if JS.Qlt_bool (taxRate params) 0 || JS.Qlt_bool 1 (taxRate params)
    then set_error errors taxRate_key "Tax rate must be between 0% and 100%"%string
    else errors in
  let errors :=
    if JS.Qlt_bool (discountRate params) 0 || JS.Qlt_bool 1 (discountRate params)
    then set_error errors discountRate_key
                   "Discount rate must be between 0% and 100%"%string
    else errors in
  let errors :=
    if JS.Qlt_bool (depreciationRate params) 0 || JS.Qlt_bool 1 (depreciationRate params)
    then set_error errors depreciationRate_key
                   "Depreciation rate must be between 0% and 100%"%string
    else errors in
  let errors :=
    if JS.Qlt_bool (terminalGrowthRate params) 0
       || JS.Qlt_bool 0.1 (terminalGrowthRate params)
    then set_error errors terminalGrowthRate_key
                   "Terminal growth rate must be between 0% and 10%"%string
    else errors in
  let errors :=
    JS.reduce (fun errors revenue index =>
                 if JS.Qlt_bool revenue 0
                 then set_error errors (revenue_key index)
                                "Revenue cannot be negative"%string
                 else errors)
              (annualRevenues params) errors in
  let errors :=
    JS.reduce (fun errors cost index =>
                 if JS.Qlt_bool cost 0
                 then set_error errors (cost_key index)
                                "Operating cost cannot be negative"%string
                 else errors)
              (operatingCosts params) errors in
  errors.

(** [Object.keys(errors).length === 0] *)
Definition isFormValid (params : ProjectParameters) : bool :=
  Nat.eqb (List.length (keys (validate params))) 0.

(** [a.slice(0, end)] for an integer [end]: a negative [end] counts from
    the end of the array. *)
Definition slice_to (a : list Q) (e : Z) : list Q :=
  let stop := if (e <? 0)%Z then Z.max (Z.of_nat (List.length a) + e) 0 else e in
  firstn (Z.to_nat stop) a.

(** [updateParams({projectTimeline, annualRevenues, operatingCosts})]: the
    next state of the form. *)
Definition with_years (params : ProjectParameters) (timeline : Z) (r c : list Q)
  : ProjectParameters :=
  {| initialInvestment := initialInvestment params;
     projectTimeline := timeline;
     annualRevenues := r;
     operatingCosts := c;
     taxRate := taxRate params;
     discountRate := discountRate params;
     depreciationRate := depreciationRate params;
     workingCapital := workingCapital params;
     terminalGrowthRate := terminalGrowthRate params;
     terminalValue := terminalValue params |}.

(** [a[a.length - 1] || 0] *)
Definition last_or_zero (a : list Q) : Q :=
  JS.or_zero (JS.index a (Z.of_nat (List.length a) - 1)).

Definition addYear (params : ProjectParameters) : ProjectParameters :=
  let newTimeline := (projectTimeline params + 1)%Z in
  let newRevenues := annualRevenues params ++ [last_or_zero (annualRevenues params)] in
  let newCosts := operatingCosts params ++ [last_or_zero (operatingCosts params)] in
  with_years params newTimeline newRevenues newCosts.

Definition removeYear (params : ProjectParameters) : ProjectParameters :=
  if (1 <? projectTimeline params)%Z then
    let newTimeline := (projectTimeline params - 1)%Z in
    let newRevenues := slice_to (annualRevenues params) newTimeline in
    let newCosts := slice_to (operatingCosts params) newTimeline in
    with_years params newTimeline newRevenues newCosts
  else params.

(** The state the form starts in. *)
Definition initial_params : ProjectParameters :=
  {| initialInvestment := 0;
     projectTimeline := 1;
     annualRevenues := [0];
     operatingCosts := [0];
     taxRate := 0.25;
     discountRate := 0.10;
     depreciationRate := 0.20;
     workingCapital := 0;
     terminalGrowthRate := 0.02;
     terminalValue := 0 |}.

(** One yearly entry per year of the timeline, and at least one year. *)
Definition one_entry_per_year (params : ProjectParameters) : Prop :=
  (1 <= projectTimeline params)%Z /\
  Z.of_nat (List.length (annualRevenues params)) = projectTimeline params /\
  Z.of_nat (List.length (operatingCosts params)) = projectTimeline params.

End Form.


(** * Properties *)

(** ** Facts about the JavaScript primitives *)

Lemma Qlt_bool_iff (a b : Q) : JS.Qlt_bool a b = true <-> a < b.
Proof.
  unfold JS.Qlt_bool. rewrite negb_true_iff.
  split; intro H.
  - apply Qnot_le_lt. intro Hle. apply Qle_bool_iff in Hle. congruence.
  - destruct (Qle_bool b a) eqn:E; [|reflexivity].
    apply Qle_bool_iff in E. exfalso. apply (Qlt_not_le _ _ H E).
Qed.

Lemma Qlt_bool_false_iff (a b : Q) : JS.Qlt_bool a b = false <-> b <= a.
Proof.
  unfold JS.Qlt_bool. rewrite negb_false_iff. apply Qle_bool_iff.
Qed.

Lemma or_zero_Some (v : Q) : JS.or_zero (Some v) == v.
Proof.
  simpl. destruct (Qeq_bool v 0) eqn:E; [|reflexivity].
  apply Qeq_bool_iff in E. symmetry. exact E.
Qed.

Lemma Forall2_Qeq_refl (a : list Q) : Forall2 Qeq a a.
Proof. induction a; constructor; auto. apply Qeq_refl. Qed.

Lemma store_at_length (a : list Q) (v : Q) : JS.store a (length a) v = a ++ [v].
Proof.
  unfold JS.store. rewrite firstn_all.
  rewrite skipn_all2 by lia. reflexivity.
Qed.

Lemma index_of_nat (a : list Q) (n : nat) : JS.index a (Z.of_nat n) = nth_error a n.
Proof.
  unfold JS.index. destruct (Z.ltb_spec (Z.of_nat n) 0); [lia|].
  now rewrite Nat2Z.id.
Qed.

Lemma index_pred (a : list Q) (n : nat) :
  JS.index a (Z.of_nat (S n) - 1) = nth_error a n.
Proof.
  replace (Z.of_nat (S n) - 1)%Z with (Z.of_nat n) by lia. apply index_of_nat.
Qed.

Lemma for_years_snoc {S : Type} (body : nat -> S -> S) (s : S) (n : nat) :
  fold_left (fun s year => body year s) (seq 1 (Datatypes.S n)) s =
  body (Datatypes.S n) (fold_left (fun s year => body year s) (seq 1 n) s).
Proof.
  rewrite seq_S, fold_left_app. reflexivity.
Qed.

(** ** Shape of the free cash flows *)

(** The loop stores at index [year = cashFlows.length] on every pass, so
    each store appends and the result is the initial outlay followed by one
    entry per year. *)
Lemma fcf_loop_shape (params : ProjectParameters) (c0 : Q) (n : nat) :
  fold_left (fun s year => fcf_body params year s) (seq 1 n) [c0] =
  c0 :: map (fun year => yl_freeCashFlow (fcf_year params year)) (seq 1 n).
Proof.
  induction n as [|n IH].
  - reflexivity.
  - rewrite for_years_snoc, IH. unfold fcf_body.
    replace (S n) with (length (c0 :: map (fun year => yl_freeCashFlow (fcf_year params year))
                                            (seq 1 n))) at 1
      by (simpl; now rewrite length_map, length_seq).
    rewrite store_at_length, seq_S, map_app. reflexivity.
Qed.

Lemma calculateFreeCashFlows_shape (params : ProjectParameters) :
  calculateFreeCashFlows params =
  add_to_last ((- initialInvestment params - workingCapital params) :: yearly_flows params)
              (terminalValue params + workingCapital params).
Proof.
  unfold calculateFreeCashFlows, JS.for_years.
  change (JS.store [] 0 (- initialInvestment params - workingCapital params))
    with [- initialInvestment params - workingCapital params].
  rewrite fcf_loop_shape. reflexivity.
Qed.

Lemma store_length (a : list Q) (i : nat) (v : Q) :
  (i < length a)%nat -> length (JS.store a i v) = length a.
Proof.
  intro Hi. unfold JS.store.
  rewrite length_app, length_firstn. cbn [length].
  rewrite length_skipn. lia.
Qed.

Lemma add_to_last_length (a : list Q) (v : Q) :
  a <> [] -> length (add_to_last a v) = length a.
Proof.
  intro Hne. unfold add_to_last. apply store_length.
  destruct a; [congruence|simpl; lia].
Qed.

Lemma calculateFreeCashFlows_length (params : ProjectParameters) :
  length (calculateFreeCashFlows params) = S (Z.to_nat (projectTimeline params)).
Proof.
  rewrite calculateFreeCashFlows_shape, add_to_last_length by discriminate.
  unfold yearly_flows. simpl. now rewrite length_map, length_seq.
Qed.

(** ** The fields of [calculateMetrics] *)

Lemma freeCashFlows_calculateMetrics (params : ProjectParameters) :
  freeCashFlows (calculateMetrics params) = calculateFreeCashFlows params.
Proof. reflexivity. Qed.

Lemma npv_calculateMetrics (params : ProjectParameters) :
  npv (calculateMetrics params) =
  calculateNPV (calculateFreeCashFlows params) (discountRate params).
Proof. reflexivity. Qed.

Lemma irr_calculateMetrics (params : ProjectParameters) :
  irr (calculateMetrics params) = calculateIRR (calculateFreeCashFlows params) default_guess.
Proof. reflexivity. Qed.

Lemma paybackPeriod_calculateMetrics (params : ProjectParameters) :
  paybackPeriod (calculateMetrics params) =
  calculatePaybackPeriod (calculateFreeCashFlows params).
Proof. reflexivity. Qed.

(** ** The worked scenario *)

(** C5: for initialInvestment=100000, projectTimeline=1, revenues=[150000],
    costs=[50000], taxRate=0.25, discountRate=0.10, depreciationRate=0.20 and
    zero working capital, terminal growth and terminal value, the year-1
    lines are depreciation 20000, ebit 80000, tax 20000, nopat 60000; the
    metrics have freeCashFlows = [-100000, 80000],
    npv = -100000 + 80000/1.10 and paybackPeriod = 2, the length of the
    cash-flow sequence. *)
Theorem scenario_metrics :
  let m := calculateMetrics scenario_params in
  let lines := fcf_year scenario_params 1 in
  yl_depreciation lines == 20000 /\
  yl_ebit lines == 80000 /\
  yl_tax lines == 20000 /\
  yl_nopat lines == 60000 /\
  Forall2 Qeq (freeCashFlows m) [-100000; 80000] /\
  npv m == -100000 + 80000 / 1.10 /\
  paybackPeriod m == 2 /\
  paybackPeriod m == JS.num (length (freeCashFlows m)).
Proof.
  cbv zeta.
  rewrite freeCashFlows_calculateMetrics, npv_calculateMetrics,
    paybackPeriod_calculateMetrics.
  repeat split; try (vm_compute; reflexivity).
  repeat constructor; vm_compute; reflexivity.
Qed.

(** ** Running sums and present values *)

Lemma reduce_from_snoc {A B : Type} (f : B -> A -> nat -> B) (a : list A) (x : A)
      (k : nat) (acc : B) :
  JS.reduce_from f (a ++ [x]) k acc = f (JS.reduce_from f a k acc) x (k + length a)%nat.
Proof.
  revert k acc. induction a as [|y a IH]; intros k acc; simpl.
  - now rewrite Nat.add_0_r.
  - rewrite IH. f_equal. lia.
Qed.

Lemma reduce_snoc {A B : Type} (f : B -> A -> nat -> B) (a : list A) (x : A) (init : B) :
  JS.reduce f (a ++ [x]) init = f (JS.reduce f a init) x (length a).
Proof. unfold JS.reduce. now rewrite reduce_from_snoc. Qed.

Lemma sum_list_snoc (a : list Q) (x : Q) : sum_list (a ++ [x]) = sum_list a + x.
Proof. unfold sum_list. now rewrite reduce_snoc. Qed.

Lemma cumulativeCashFlows_calculateMetrics (params : ProjectParameters) :
  cumulativeCashFlows (calculateMetrics params) =
  JS.reduce cumulative_step (calculateFreeCashFlows params) [].
Proof. reflexivity. Qed.

Lemma presentValues_calculateMetrics (params : ProjectParameters) :
  presentValues (calculateMetrics params) =
  JS.mapi (fun flow index => flow / JS.pow (1 + discountRate params) index)
          (calculateFreeCashFlows params).
Proof. reflexivity. Qed.

Lemma cumulative_step_append (acc : list Q) (flow : Q) (index : nat) :
  length acc = index ->
  cumulative_step acc flow index =
  acc ++ [JS.or_zero (JS.index acc (Z.of_nat index - 1)) + flow].
Proof.
  intros <-. unfold cumulative_step. apply store_at_length.
Qed.

(** The reducer appends one entry per flow, and entry [i] is the sum of the
    flows up to and including [i]. *)
Lemma cumulative_running_sum (flows : list Q) :
  length (JS.reduce cumulative_step flows []) = length flows /\
  forall i, (i < length flows)%nat ->
    exists c, nth_error (JS.reduce cumulative_step flows []) i = Some c /\
              c == sum_list (firstn (S i) flows).
Proof.
  induction flows as [|x flows IH] using rev_ind.
  - split; [reflexivity|]. simpl. intros i Hi. lia.
  - destruct IH as [Hlen Hsum].
    rewrite reduce_snoc, cumulative_step_append by exact Hlen.
    split.
    + rewrite !length_app. simpl. lia.
    + intros i Hi. rewrite length_app in Hi. simpl in Hi.
      destruct (Nat.eq_dec i (length flows)) as [->|Hne].
      * rewrite nth_error_app2 by lia.
        rewrite Hlen, Nat.sub_diag. simpl nth_error.
        eexists. split; [reflexivity|].
        rewrite firstn_all2 by (rewrite length_app; simpl; lia).
        rewrite sum_list_snoc.
        destruct (length flows) as [|n] eqn:En.
        -- destruct flows; [|discriminate]. reflexivity.
        -- rewrite index_pred.
           destruct (Hsum n) as [c [Hc Hc']]; [lia|].
           rewrite Hc, or_zero_Some, Hc'.
           rewrite firstn_all2 by lia. reflexivity.
      * destruct (Hsum i) as [c [Hc Hc']]; [lia|].
        exists c. split.
        -- rewrite nth_error_app1 by lia. exact Hc.
        -- rewrite firstn_app.
           replace (S i - length flows)%nat with 0%nat by lia.
           simpl firstn at 2. now rewrite app_nil_r.
Qed.

Lemma pow_0 (x : Q) : JS.pow x 0 == 1.
Proof. reflexivity. Qed.

(** C6: in the metrics returned for any parameters, [cumulativeCashFlows]
    has an entry at every index [i] of [freeCashFlows] and it equals the sum
    of [freeCashFlows[0..i]]; and [presentValues[0]] equals
    [freeCashFlows[0]], whatever the discount rate. *)
Theorem cumulative_and_present_values (params : ProjectParameters) (i : nat)
        (Hi : (i < length (freeCashFlows (calculateMetrics params)))%nat) :
  let m := calculateMetrics params in
  (exists c, nth_error (cumulativeCashFlows m) i = Some c /\
             c == sum_list (firstn (S i) (freeCashFlows m))) /\
  (exists f0 pv0, nth_error (freeCashFlows m) 0 = Some f0 /\
                  nth_error (presentValues m) 0 = Some pv0 /\
                  pv0 == f0).
Proof.
  cbv zeta.
  rewrite cumulativeCashFlows_calculateMetrics, presentValues_calculateMetrics,
    freeCashFlows_calculateMetrics in *.
  split.
  - now apply cumulative_running_sum.
  - destruct (calculateFreeCashFlows params) as [|f0 rest] eqn:E.
    + simpl in Hi. lia.
    + exists f0, (f0 / JS.pow (1 + discountRate params) 0). repeat split.
      rewrite pow_0. field.
Qed.

Lemma cumulative_and_present_values_witness :
  (1 < length (freeCashFlows (calculateMetrics scenario_params)))%nat /\
  let m := calculateMetrics scenario_params in
  (exists c, nth_error (cumulativeCashFlows m) 1 = Some c /\
             c == sum_list (firstn 2 (freeCashFlows m))) /\
  (exists f0 pv0, nth_error (freeCashFlows m) 0 = Some f0 /\
                  nth_error (presentValues m) 0 = Some pv0 /\
                  pv0 == f0).
Proof.
  assert (H : (1 < length (freeCashFlows (calculateMetrics scenario_params)))%nat).
  { rewrite freeCashFlows_calculateMetrics, calculateFreeCashFlows_length. simpl. lia. }
  split; [exact H | exact (cumulative_and_present_values scenario_params 1 H)].
Defined.

(** ** Monotonicity of the valuation *)

Lemma Forall2_store (a b : list Q) (x y : Q) (i : nat) :
  Forall2 Qle a b -> x <= y -> Forall2 Qle (JS.store a i x) (JS.store b i y).
Proof.
  intros Hab Hxy. revert i.
  induction Hab as [|u v a b Huv Hab IH]; intros i.
  - unfold JS.store. rewrite !firstn_nil, !skipn_nil. simpl. auto.
  - destruct i as [|i].
    + unfold JS.store. simpl. auto.
    + specialize (IH i). unfold JS.store in *. simpl. auto.
Qed.

Lemma Forall2_nth_le (a b : list Q) (i : nat) :
  Forall2 Qle a b -> nth i a 0 <= nth i b 0.
Proof.
  intros Hab. revert i.
  induction Hab as [|u v a b Huv Hab IH]; intros [|i]; simpl; auto; apply Qle_refl.
Qed.

Lemma add_to_last_le (a b : list Q) (v : Q) :
  Forall2 Qle a b -> Forall2 Qle (add_to_last a v) (add_to_last b v).
Proof.
  intros Hab. unfold add_to_last.
  rewrite (Forall2_length Hab).
  apply Forall2_store; [exact Hab|].
  apply Qplus_le_compat; [now apply Forall2_nth_le | apply Qle_refl].
Qed.

Lemma pow_pos (x : Q) (n : nat) : 0 < x -> 0 < JS.pow x n.
Proof. intro Hx. unfold JS.pow. now apply Qpower_0_lt. Qed.

Lemma discounted_le (x y d : Q) : 0 < d -> x <= y -> x / d <= y / d.
Proof.
  intros Hd Hxy. unfold Qdiv.
  apply Qmult_le_compat_r; [exact Hxy|].
  apply Qlt_le_weak. now apply Qinv_lt_0_compat.
Qed.

Lemma npv_reduce_monotone (a b : list Q) (rate : Q) (k : nat) (acc acc' : Q) :
  0 < 1 + rate -> Forall2 Qle a b -> acc <= acc' ->
  JS.reduce_from (fun npv cashFlow index => npv + cashFlow / JS.pow (1 + rate) index) a k acc <=
  JS.reduce_from (fun npv cashFlow index => npv + cashFlow / JS.pow (1 + rate) index) b k acc'.
Proof.
  intros Hr Hab. revert k acc acc'.
  induction Hab as [|x y a b Hxy Hab IH]; intros k acc acc' Hacc; simpl.
  - exact Hacc.
  - apply IH. apply Qplus_le_compat; [exact Hacc|].
    apply discounted_le; [now apply pow_pos | exact Hxy].
Qed.

(** With a discount factor [1 + rate > 0], NPV is monotone in every flow. *)
Lemma calculateNPV_monotone (a b : list Q) (rate : Q) :
  0 < 1 + rate -> Forall2 Qle a b -> calculateNPV a rate <= calculateNPV b rate.
Proof.
  intros Hr Hab. unfold calculateNPV, JS.reduce.
  apply npv_reduce_monotone; auto. apply Qle_refl.
Qed.

Lemma index_map (f : Q -> Q) (a : list Q) (i : Z) :
  JS.index (map f a) i = option_map f (JS.index a i).
Proof.
  unfold JS.index. destruct (i <? 0)%Z; [reflexivity|]. apply nth_error_map.
Qed.

Lemma index_Forall (P : Q -> Prop) (a : list Q) (i : Z) (v : Q) :
  Forall P a -> JS.index a i = Some v -> P v.
Proof.
  intros Ha Hi. unfold JS.index in Hi. destruct (i <? 0)%Z; [discriminate|].
  apply nth_error_In in Hi. rewrite Forall_forall in Ha. auto.
Qed.

(** Scaling non-negative entries by a factor of at least 1 does not lower
    what [a[i] || 0] reads, and a factor of at most 1 does not raise it. *)
Lemma or_zero_scaled_up (a : list Q) (c : Q) (i : Z) :
  Forall (fun v => 0 <= v) a -> 1 <= c ->
  JS.or_zero (JS.index a i) <= JS.or_zero (JS.index (map (fun v => v * c) a) i).
Proof.
  intros Ha Hc. rewrite index_map.
  destruct (JS.index a i) as [v|] eqn:E; cbn [option_map].
  - rewrite !or_zero_Some. pose proof (index_Forall _ _ _ _ Ha E) as Hv.
    simpl in Hv. nra.
  - apply Qle_refl.
Qed.

Lemma or_zero_scaled_down (a : list Q) (c : Q) (i : Z) :
  Forall (fun v => 0 <= v) a -> c <= 1 ->
  JS.or_zero (JS.index (map (fun v => v * c) a) i) <= JS.or_zero (JS.index a i).
Proof.
  intros Ha Hc. rewrite index_map.
  destruct (JS.index a i) as [v|] eqn:E; cbn [option_map].
  - rewrite !or_zero_Some. pose proof (index_Forall _ _ _ _ Ha E) as Hv.
    simpl in Hv. nra.
  - apply Qle_refl.
Qed.

(** Two parameter sets that differ only in revenues and costs: higher
    revenue and lower cost in a year give a free cash flow at least as high,
    provided the tax rate is at most 1. *)
Lemma fcf_year_monotone (p q : ProjectParameters) (year : nat) :
  initialInvestment p = initialInvestment q ->
  depreciationRate p = depreciationRate q ->
  taxRate p = taxRate q ->
  taxRate p <= 1 ->
  revenue_of p year <= revenue_of q year ->
  operatingCost_of q year <= operatingCost_of p year ->
  yl_freeCashFlow (fcf_year p year) <= yl_freeCashFlow (fcf_year q year).
Proof.
  intros HI Hd Ht Ht1 Hrev Hcost.
  unfold fcf_year. cbn [yl_freeCashFlow].
  rewrite <- HI, <- Hd, <- Ht.
  set (d := initialInvestment p * depreciationRate p).
  set (e1 := revenue_of p year - operatingCost_of p year - d).
  set (e2 := revenue_of q year - operatingCost_of q year - d).
  assert (He : e1 <= e2) by (unfold e1, e2; lra).
  destruct (JS.Qlt_bool 0 e1) eqn:E1; destruct (JS.Qlt_bool 0 e2) eqn:E2;
    try apply Qlt_bool_iff in E1; try apply Qlt_bool_iff in E2;
    try apply Qlt_bool_false_iff in E1; try apply Qlt_bool_false_iff in E2;
    nra.
Qed.

Lemma calculateFreeCashFlows_monotone (p q : ProjectParameters) :
  initialInvestment p = initialInvestment q ->
  projectTimeline p = projectTimeline q ->
  depreciationRate p = depreciationRate q ->
  taxRate p = taxRate q ->
  workingCapital p = workingCapital q ->
  terminalValue p = terminalValue q ->
  taxRate p <= 1 ->
  (forall year, revenue_of p year <= revenue_of q year) ->
  (forall year, operatingCost_of q year <= operatingCost_of p year) ->
  Forall2 Qle (calculateFreeCashFlows p) (calculateFreeCashFlows q).
Proof.
  intros HI HT Hd Ht Hw Hv Ht1 Hrev Hcost.
  rewrite !calculateFreeCashFlows_shape. unfold yearly_flows.
  rewrite <- HI, <- HT, <- Hw, <- Hv.
  apply add_to_last_le. constructor; [apply Qle_refl|].
  induction (seq 1 (Z.to_nat (projectTimeline p))) as [|y ys IH]; simpl; constructor.
  - apply fcf_year_monotone; auto.
  - exact IH.
Qed.

(** C7: when every annual revenue and operating cost is non-negative and
    the tax rate and the discount rate lie in [0,1], the scenario analysis
    (best case revenues x1.2 and costs x0.9, worst case revenues x0.8 and
    costs x1.15, base case unmodified) satisfies
    bestCase.npv >= baseCase.npv >= worstCase.npv. *)
Theorem scenario_npv_ordering (params : ProjectParameters)
        (Hrev : Forall (fun rev => 0 <= rev) (annualRevenues params))
        (Hcost : Forall (fun cost => 0 <= cost) (operatingCosts params))
        (Htax : 0 <= taxRate params <= 1)
        (Hrate : 0 <= discountRate params <= 1) :
  let s := calculateScenarioAnalysis params in
  npv (bestCase s) >= npv (baseCase s) /\ npv (baseCase s) >= npv (worstCase s).
Proof.
  cbv zeta. unfold calculateScenarioAnalysis. cbn [bestCase baseCase worstCase].
  rewrite !npv_calculateMetrics.
  change (discountRate (bestCaseParams params)) with (discountRate params).
  change (discountRate (worstCaseParams params)) with (discountRate params).
  assert (Hr : 0 < 1 + discountRate params) by lra.
  split; apply calculateNPV_monotone; try exact Hr;
    apply calculateFreeCashFlows_monotone; try reflexivity; try tauto; intro year;
    unfold revenue_of, operatingCost_of, bestCaseParams, worstCaseParams, with_inputs;
    cbn [annualRevenues operatingCosts];
    first [ apply or_zero_scaled_up; [assumption | lra]
          | apply or_zero_scaled_down; [assumption | lra] ].
Qed.

Lemma scenario_npv_ordering_witness :
  Forall (fun rev => 0 <= rev) (annualRevenues scenario_params) /\
  Forall (fun cost => 0 <= cost) (operatingCosts scenario_params) /\
  0 <= taxRate scenario_params <= 1 /\
  0 <= discountRate scenario_params <= 1 /\
  let s := calculateScenarioAnalysis scenario_params in
  npv (bestCase s) >= npv (baseCase s) /\ npv (baseCase s) >= npv (worstCase s).
Proof.
  assert (Hrev : Forall (fun rev => 0 <= rev) (annualRevenues scenario_params))
    by (repeat constructor; simpl; lra).
  assert (Hcost : Forall (fun cost => 0 <= cost) (operatingCosts scenario_params))
    by (repeat constructor; simpl; lra).
  assert (Htax : 0 <= taxRate scenario_params <= 1) by (simpl; lra).
  assert (Hrate : 0 <= discountRate scenario_params <= 1) by (simpl; lra).
  exact (conj Hrev (conj Hcost (conj Htax (conj Hrate
           (scenario_npv_ordering scenario_params Hrev Hcost Htax Hrate))))).
Defined.

(** ** The IRR solver *)




(** At a finite rate other than -1 every power of [1 + rate] is finite and
    not zero, so the NPV and the derivative are finite. *)
Lemma pow_finite (x : Q) (n : nat) :
  Number.pow (Number.add 1 x) n = Number.Finite (JS.pow (1 + x) n) \/
  (n = 0%nat /\ Number.pow (Number.add 1 x) n = Number.Finite 1).
Proof. destruct n; [right; split; reflexivity | left; reflexivity]. Qed.

Lemma pow_not_zero (x : Q) (n : nat) : ~ 1 + x == 0 -> ~ JS.pow (1 + x) n == 0.
Proof. intro H. unfold JS.pow. now apply Qpower_not_0. Qed.

Lemma div_by_pow_finite (a x : Q) (n : nat) :
  ~ 1 + x == 0 ->
  exists q, Number.div a (Number.pow (Number.add 1 x) n) = Number.Finite q /\
            q == a / JS.pow (1 + x) n.
Proof.
  intro Hx. destruct n as [|n].
  - exists (a / 1). split; [reflexivity|]. rewrite pow_0. reflexivity.
  - cbn [Number.pow Number.add Number.div].
    destruct (Qeq_bool (JS.pow (1 + x) (S n)) 0) eqn:E.
    + apply Qeq_bool_iff in E. exfalso. exact (pow_not_zero x (S n) Hx E).
    + eexists. split; reflexivity.
Qed.





(** ** The statement pipeline *)

Lemma cashflow_loop_shape (params : ProjectParameters) (n : nat) :
  fold_left (fun s year => cashflow_body params year s) (seq 1 n)
            {| cf_cashFlowStatements := [];
               cf_beginningCashBalance := workingCapital params |} =
  {| cf_cashFlowStatements :=
       map (fun k => cashflow_statement params (S k) (beginning_of params k)) (seq 0 n);
     cf_beginningCashBalance := beginning_of params n |}.
Proof.
  induction n as [|n IH].
  - reflexivity.
  - rewrite for_years_snoc, IH. unfold cashflow_body. cbn [cf_cashFlowStatements
      cf_beginningCashBalance]. rewrite (seq_S n 0), map_app. reflexivity.
Qed.

Lemma generateCashFlowStatements_shape (params : ProjectParameters) :
  generateCashFlowStatements params =
  map (fun k => cashflow_statement params (S k) (beginning_of params k))
      (seq 0 (Z.to_nat (projectTimeline params))).
Proof.
  unfold generateCashFlowStatements, JS.for_years.
  now rewrite cashflow_loop_shape.
Qed.

Lemma generateCashFlowStatements_nth (params : ProjectParameters) (k : nat)
      (s : CashFlowStatement.t) :
  nth_error (generateCashFlowStatements params) k = Some s ->
  s = cashflow_statement params (S k) (beginning_of params k).
Proof.
  rewrite generateCashFlowStatements_shape, nth_error_map.
  destruct (nth_error (seq 0 (Z.to_nat (projectTimeline params))) k) as [j|] eqn:E;
    [|discriminate].
  simpl. intros [= <-].
  rewrite nth_error_seq in E.
  destruct (Nat.ltb k (Z.to_nat (projectTimeline params))); [|discriminate].
  injection E as <-. reflexivity.
Qed.

Lemma cashFlowStatements_generateFinancialReports (params : ProjectParameters) :
  cashFlowStatements (generateFinancialReports params) = generateCashFlowStatements params.
Proof. reflexivity. Qed.

(** What the financing lines of [generateCashFlowStatements] are, for any
    parameters: the issuance is 0.6 x initialInvestment in year 1 and 0
    afterwards, and the repayment, computed from the same year's issuance,
    is 0 in every year. *)
Lemma financing_lines (params : ProjectParameters) (s : CashFlowStatement.t) :
  In s (generateCashFlowStatements params) ->
  (CashFlowStatement.year s = 1%nat ->
   CashFlowStatement.debtIssuance s = initialInvestment params * 0.6) /\
  ((2 <= CashFlowStatement.year s)%nat -> CashFlowStatement.debtIssuance s = 0) /\
  CashFlowStatement.debtRepayment s == 0.
Proof.
  intro Hin. apply In_nth_error in Hin. destruct Hin as [k Hk].
  apply generateCashFlowStatements_nth in Hk. subst s.
  unfold cashflow_statement.
  cbn [CashFlowStatement.year CashFlowStatement.debtIssuance CashFlowStatement.debtRepayment].
  repeat split.
  - intros [= ->]. reflexivity.
  - intro H2. destruct k as [|k]; [lia|]. reflexivity.
  - destruct k as [|k]; [reflexivity|].
    change (Nat.ltb 1 (S (S k))) with true. change (Nat.eqb (S (S k)) 1) with false.
    cbv iota. unfold Qdiv. ring.
Qed.

(** C1 (violated by the code): in the two-year scenario the claim requires
    the year-2 repayment 0.6 x 100000 / (2 - 1) = 60000;
    [generateCashFlowStatements] (and with it [generateFinancialReports])
    produces the year-2 statement with debtIssuance 0 and debtRepayment 0,
    because the repayment divides the issuance of the same year. *)
Theorem year2_debtRepayment_is_zero :
  exists s,
    nth_error (cashFlowStatements (generateFinancialReports two_year_params)) 1 = Some s /\
    CashFlowStatement.year s = 2%nat /\
    CashFlowStatement.debtIssuance s == 0 /\
    CashFlowStatement.debtRepayment s == 0 /\
    ~ CashFlowStatement.debtRepayment s ==
      (0.6 * initialInvestment two_year_params)
      / (inject_Z (projectTimeline two_year_params) - 1) /\
    (0.6 * initialInvestment two_year_params)
      / (inject_Z (projectTimeline two_year_params) - 1) == 60000.
Proof.
  rewrite cashFlowStatements_generateFinancialReports.
  eexists. split; [vm_compute; reflexivity|].
  cbn [CashFlowStatement.year CashFlowStatement.debtIssuance CashFlowStatement.debtRepayment].
  repeat split; try (vm_compute; reflexivity).
  vm_compute. discriminate.
Qed.

(** The balance-sheet loop only ever appends to the list it has built. *)
Lemma balance_loop_prefix (params : ProjectParameters) (years : list nat) (s : BalanceState) :
  exists rest,
    bs_balanceSheets (fold_left (fun s year => balance_body params year s) years s) =
    bs_balanceSheets s ++ rest.
Proof.
  revert s. induction years as [|y years IH]; intro s; simpl.
  - exists []. now rewrite app_nil_r.
  - destruct (IH (balance_body params y s)) as [rest Hrest].
    rewrite Hrest. unfold balance_body. cbn [bs_balanceSheets].
    rewrite <- app_assoc. eauto.
Qed.

(** C10: for a timeline of at least one year the running cash balances
    start from the working capital: the first cash-flow statement has
    beginningCashBalance = workingCapital; the year-1 balance sheet has
    cashAndEquivalents = workingCapital + (revenue1 - operatingCost1 -
    depreciation) + depreciation; and every later cash-flow statement begins
    with the ending balance of the statement before it. *)
Theorem cash_balances_start_from_working_capital (params : ProjectParameters)
        (Htimeline : (1 <= projectTimeline params)%Z) :
  (exists s, nth_error (generateCashFlowStatements params) 0 = Some s /\
             CashFlowStatement.year s = 1%nat /\
             CashFlowStatement.beginningCashBalance s = workingCapital params) /\
  (exists b, nth_error (generateBalanceSheets params) 0 = Some b /\
             BalanceSheet.year b = 1%nat /\
             let depreciation := initialInvestment params * depreciationRate params in
             BalanceSheet.cashAndEquivalents b ==
             workingCapital params
             + (revenue_of params 1 - operatingCost_of params 1 - depreciation)
             + depreciation) /\
  (forall k s s',
      nth_error (generateCashFlowStatements params) k = Some s ->
      nth_error (generateCashFlowStatements params) (S k) = Some s' ->
      CashFlowStatement.beginningCashBalance s' = CashFlowStatement.endingCashBalance s).
Proof.
  assert (Hn : exists n, Z.to_nat (projectTimeline params) = S n).
  { exists (Z.to_nat (projectTimeline params) - 1)%nat. lia. }
  destruct Hn as [n Hn].
  split; [|split].
  - rewrite generateCashFlowStatements_shape, Hn. simpl. eauto.
  - unfold generateBalanceSheets, JS.for_years. rewrite Hn.
    cbn [seq fold_left].
    match goal with
    | |- context [fold_left ?f ?ys ?s] =>
        destruct (balance_loop_prefix params ys s) as [rest Hrest]
    end.
    rewrite Hrest. unfold balance_body. cbn [bs_balanceSheets bs_cashBalance app nth_error].
    eexists. split; [reflexivity|].
    cbn [BalanceSheet.year BalanceSheet.cashAndEquivalents]. split; [reflexivity|].
    cbv zeta. ring.
  - intros k s s' Hs Hs'.
    apply generateCashFlowStatements_nth in Hs, Hs'. subst s s'. reflexivity.
Qed.

Lemma cash_balances_start_from_working_capital_witness :
  (1 <= projectTimeline two_year_params)%Z /\
  (exists s, nth_error (generateCashFlowStatements two_year_params) 0 = Some s /\
             CashFlowStatement.year s = 1%nat /\
             CashFlowStatement.beginningCashBalance s = workingCapital two_year_params) /\
  (exists b, nth_error (generateBalanceSheets two_year_params) 0 = Some b /\
             BalanceSheet.year b = 1%nat /\
             let depreciation :=
               initialInvestment two_year_params * depreciationRate two_year_params in
             BalanceSheet.cashAndEquivalents b ==
             workingCapital two_year_params
             + (revenue_of two_year_params 1 - operatingCost_of two_year_params 1
                - depreciation)
             + depreciation) /\
  (forall k s s',
      nth_error (generateCashFlowStatements two_year_params) k = Some s ->
      nth_error (generateCashFlowStatements two_year_params) (S k) = Some s' ->
      CashFlowStatement.beginningCashBalance s' = CashFlowStatement.endingCashBalance s).
Proof.
  assert (H : (1 <= projectTimeline two_year_params)%Z) by (simpl; lia).
  split; [exact H | exact (cash_balances_start_from_working_capital two_year_params H)].
Defined.

(** ** Sorting with the comparator [(a, b) => a - b] *)

Lemma insert_length (x : Q) (a : list Q) : length (JS.insert x a) = S (length a).
Proof.
  induction a as [|y a IH]; simpl; [reflexivity|].
  destruct (Qle_bool (x - y) 0); simpl; [reflexivity | now rewrite IH].
Qed.

Lemma sort_length (a : list Q) : length (JS.sort a) = length a.
Proof.
  induction a as [|x a IH]; simpl; [reflexivity|].
  now rewrite insert_length, IH.
Qed.

Lemma insert_perm (x : Q) (a : list Q) : Permutation (x :: a) (JS.insert x a).
Proof.
  induction a as [|y a IH]; simpl; [reflexivity|].
  destruct (Qle_bool (x - y) 0); [reflexivity|].
  rewrite perm_swap. now constructor.
Qed.

Lemma sort_perm (a : list Q) : Permutation a (JS.sort a).
Proof.
  induction a as [|x a IH]; simpl; [constructor|].
  rewrite <- insert_perm. now constructor.
Qed.

Lemma insert_sorted (x : Q) (a : list Q) :
  StronglySorted Qle a -> StronglySorted Qle (JS.insert x a).
Proof.
  induction 1 as [|y a Hs IH Hy]; simpl.
  - repeat constructor.
  - destruct (Qle_bool (x - y) 0) eqn:E.
    + apply Qle_bool_iff in E. assert (Hxy : x <= y) by lra.
      constructor; [now constructor|].
      constructor; [exact Hxy|].
      eapply Forall_impl; [|exact Hy]. intros z Hz. cbv beta in *. lra.
    + assert (Hyx : y <= x).
      { destruct (Qlt_le_dec y x) as [H|H]; [lra|].
        assert (Hle : x - y <= 0) by lra.
        apply Qle_bool_iff in Hle. congruence. }
      constructor; [exact IH|].
      apply (Permutation_Forall (insert_perm x a)).
      constructor; assumption.
Qed.

Lemma sort_sorted (a : list Q) : StronglySorted Qle (JS.sort a).
Proof.
  induction a as [|x a IH]; simpl; [constructor | now apply insert_sorted].
Qed.

(** In an ascending array a smaller index reads a smaller or equal value. *)
Lemma sorted_nth_error_le (a : list Q) (i j : nat) (x y : Q) :
  StronglySorted Qle a -> (i <= j)%nat ->
  nth_error a i = Some x -> nth_error a j = Some y -> x <= y.
Proof.
  intro Hs. revert i j. induction Hs as [|z a Hs IH Hz]; intros i j Hij Hi Hj.
  - destruct i; discriminate.
  - destruct i as [|i], j as [|j]; simpl in *.
    + injection Hi as <-. injection Hj as <-. apply Qle_refl.
    + injection Hi as <-. apply nth_error_In in Hj.
      rewrite Forall_forall in Hz. auto.
    + lia.
    + apply (IH i j); auto. lia.
Qed.

(** ** The Monte Carlo simulation *)

(** One pass of the loop: three draws, one value pushed on each array. *)
Lemma iteration_spec (random : nat -> Q) (params : ProjectParameters)
      (a : list Q) (b : list Number.t) (i : nat) :
  MC.iteration random params 0%nat 0%nat
               {| MC.arrays := [a]; MC.rates := [b]; MC.drawn := (3 * i)%nat |} =
  (tt, {| MC.arrays := [a ++ [npv (recorded random params i)]];
          MC.rates := [b ++ [irr (recorded random params i)]];
          MC.drawn := (3 * S i)%nat |}).
Proof.
  unfold MC.iteration, MC.bind, MC.Math_random, MC.push, MC.push_rate, MC.read,
    MC.write, MC.bind, MC.contents, MC.rate_contents.
  cbn [MC.arrays MC.rates MC.drawn nth MC.set_nth].
  unfold recorded, simulationParams_of.
  replace (S (3 * i)) with (3 * i + 1)%nat by lia.
  replace (S (3 * i + 1)) with (3 * i + 2)%nat by lia.
  replace (S (3 * i + 2)) with (3 * S i)%nat by lia.
  reflexivity.
Qed.

Lemma for_iterations_spec (random : nat -> Q) (params : ProjectParameters)
      (n : nat) (a : list Q) (b : list Number.t) (k : nat) :
  MC.for_iterations n (MC.iteration random params 0%nat 0%nat)
                    {| MC.arrays := [a]; MC.rates := [b]; MC.drawn := (3 * k)%nat |} =
  (tt, {| MC.arrays := [a ++ map (fun i => npv (recorded random params i)) (seq k n)];
          MC.rates := [b ++ map (fun i => irr (recorded random params i)) (seq k n)];
          MC.drawn := (3 * (k + n))%nat |}).
Proof.
  revert a b k. induction n as [|n IH]; intros a b k.
  - cbn [MC.for_iterations seq map]. unfold MC.ret.
    now rewrite !app_nil_r, Nat.add_0_r.
  - cbn [MC.for_iterations]. unfold MC.bind at 1.
    rewrite iteration_spec, IH.
    cbn [seq map]. rewrite <- !app_assoc. cbn [app].
    replace (k + S n)%nat with (S k + n)%nat by lia. reflexivity.
Qed.

(** The result of a run, in terms of the metrics recorded per iteration:
    the NPV array is sorted where it stands, so the returned
    [npvDistribution] is the sorted array; the IRR array is returned as it
    was recorded. *)
Lemma runMonteCarloSimulation_spec (random : nat -> Q) (params : ProjectParameters)
      (iterations : nat) :
  let npvs := map (fun i => npv (recorded random params i)) (seq 0 iterations) in
  let irrs := map (fun i => irr (recorded random params i)) (seq 0 iterations) in
  let sortedNPV := JS.sort npvs in
  runMonteCarloSimulation random params iterations =
  {| npvDistribution := sortedNPV;
     irrDistribution := irrs;
     probabilityOfPositiveNPV :=
       JS.num (length (filter (fun npv => JS.Qlt_bool 0 npv) sortedNPV)) / JS.num iterations;
     expectedNPV := sum_list sortedNPV / JS.num iterations;
     npvPercentiles :=
       {| MC.p10 := JS.index sortedNPV (Qfloor (JS.num iterations * 0.1));
          MC.p25 := JS.index sortedNPV (Qfloor (JS.num iterations * 0.25));
          MC.p50 := JS.index sortedNPV (Qfloor (JS.num iterations * 0.5));
          MC.p75 := JS.index sortedNPV (Qfloor (JS.num iterations * 0.75));
          MC.p90 := JS.index sortedNPV (Qfloor (JS.num iterations * 0.9)) |} |}.
Proof.
  cbv zeta. unfold runMonteCarloSimulation, MC.simulation.
  unfold MC.bind at 1. unfold MC.new_array at 1, MC.empty_world.
  cbn [MC.arrays MC.rates MC.drawn length app].
  unfold MC.bind at 1. unfold MC.new_rate_array at 1.
  cbn [MC.arrays MC.rates MC.drawn length app].
  unfold MC.bind at 1.
  change 0%nat with (3 * 0)%nat at 3.
  rewrite for_iterations_spec.
  reflexivity.
Qed.

(** What a run returns, for any source, parameters and iteration count:
    [npvDistribution] is the recorded NPVs rearranged in ascending order,
    [irrDistribution] is the recorded IRRs in recording order. *)
Lemma distributions_of_a_run (random : nat -> Q) (params : ProjectParameters)
      (iterations : nat) :
  let r := runMonteCarloSimulation random params iterations in
  StronglySorted Qle (npvDistribution r) /\
  Permutation (map (fun i => npv (recorded random params i)) (seq 0 iterations))
              (npvDistribution r) /\
  irrDistribution r = map (fun i => irr (recorded random params i)) (seq 0 iterations).
Proof.
  cbv zeta. rewrite runMonteCarloSimulation_spec.
  cbn [npvDistribution irrDistribution].
  split; [apply sort_sorted|]. split; [apply sort_perm | reflexivity].
Qed.

Lemma num_pos (n : nat) : (1 <= n)%nat -> 1 <= JS.num n.
Proof.
  intro Hn. unfold JS.num. change 1 with (inject_Z 1). rewrite <- Zle_Qle. lia.
Qed.

Lemma num_le (m n : nat) : (m <= n)%nat -> JS.num m <= JS.num n.
Proof. intro H. unfold JS.num. rewrite <- Zle_Qle. lia. Qed.

(** [Math.floor(iterations * q)] is a valid index when [0 <= q < 1]. *)
Lemma percentile_index_range (n : nat) (q : Q) :
  (1 <= n)%nat -> 0 <= q -> q < 1 ->
  (0 <= Qfloor (JS.num n * q) < Z.of_nat n)%Z.
Proof.
  intros Hn Hq0 Hq1. pose proof (num_pos n Hn) as Hnum.
  split.
  - change 0%Z with (Qfloor 0). apply Qfloor_resp_le. nra.
  - rewrite Zlt_Qlt. fold (JS.num n).
    pose proof (Qfloor_le (JS.num n * q)). nra.
Qed.

Lemma percentile_defined (a : list Q) (n : nat) (q : Q) :
  length a = n -> (1 <= n)%nat -> 0 <= q -> q < 1 ->
  exists v, JS.index a (Qfloor (JS.num n * q)) = Some v.
Proof.
  intros Hlen Hn Hq0 Hq1.
  destruct (percentile_index_range n q Hn Hq0 Hq1) as [H0 H1].
  unfold JS.index. destruct (Z.ltb_spec (Qfloor (JS.num n * q)) 0); [lia|].
  destruct (nth_error a (Z.to_nat (Qfloor (JS.num n * q)))) as [v|] eqn:E; [eauto|].
  apply nth_error_None in E. lia.
Qed.

Lemma percentile_ordered (a : list Q) (n : nat) (q1 q2 v1 v2 : Q) :
  StronglySorted Qle a -> (1 <= n)%nat -> 0 <= q1 -> q1 <= q2 ->
  JS.index a (Qfloor (JS.num n * q1)) = Some v1 ->
  JS.index a (Qfloor (JS.num n * q2)) = Some v2 ->
  v1 <= v2.
Proof.
  intros Hs Hn Hq0 Hq H1 H2. pose proof (num_pos n Hn) as Hnum.
  unfold JS.index in H1, H2.
  destruct (Z.ltb_spec (Qfloor (JS.num n * q1)) 0); [discriminate|].
  destruct (Z.ltb_spec (Qfloor (JS.num n * q2)) 0); [discriminate|].
  eapply sorted_nth_error_le; [exact Hs | | exact H1 | exact H2].
  apply Z2Nat.inj_le; try lia.
  apply Qfloor_resp_le. nra.
Qed.

(** C8: for N >= 1 iterations the result has npvDistribution and
    irrDistribution of length exactly N, probabilityOfPositiveNPV in [0,1],
    and all five percentiles defined with p10 <= p25 <= p50 <= p75 <= p90. *)
Theorem monte_carlo_result_shape (random : nat -> Q) (params : ProjectParameters)
        (N : nat) (HN : (1 <= N)%nat) :
  let r := runMonteCarloSimulation random params N in
  length (npvDistribution r) = N /\
  length (irrDistribution r) = N /\
  0 <= probabilityOfPositiveNPV r <= 1 /\
  exists v10 v25 v50 v75 v90,
    MC.p10 (npvPercentiles r) = Some v10 /\
    MC.p25 (npvPercentiles r) = Some v25 /\
    MC.p50 (npvPercentiles r) = Some v50 /\
    MC.p75 (npvPercentiles r) = Some v75 /\
    MC.p90 (npvPercentiles r) = Some v90 /\
    v10 <= v25 /\ v25 <= v50 /\ v50 <= v75 /\ v75 <= v90.
Proof.
  cbv zeta. rewrite runMonteCarloSimulation_spec.
  cbn [npvDistribution irrDistribution probabilityOfPositiveNPV npvPercentiles
       MC.p10 MC.p25 MC.p50 MC.p75 MC.p90].
  set (sortedNPV := JS.sort (map (fun i => npv (recorded random params i)) (seq 0 N))).
  assert (Hlen : length sortedNPV = N).
  { unfold sortedNPV. now rewrite sort_length, length_map, length_seq. }
  assert (Hsorted : StronglySorted Qle sortedNPV) by apply sort_sorted.
  pose proof (num_pos N HN) as Hnum.
  split; [exact Hlen|]. split; [now rewrite length_map, length_seq|]. split.
  - pose proof (filter_length_le (fun npv => JS.Qlt_bool 0 npv) sortedNPV) as Hcount.
    rewrite Hlen in Hcount. apply num_le in Hcount.
    assert (H0 : 0 <= JS.num (length (filter (fun npv => JS.Qlt_bool 0 npv) sortedNPV))).
    { change 0 with (JS.num 0). apply num_le. lia. }
    split.
    + apply Qle_shift_div_l; lra.
    + apply Qle_shift_div_r; lra.
  - destruct (percentile_defined sortedNPV N 0.1 Hlen HN) as [v10 H10]; try lra.
    destruct (percentile_defined sortedNPV N 0.25 Hlen HN) as [v25 H25]; try lra.
    destruct (percentile_defined sortedNPV N 0.5 Hlen HN) as [v50 H50]; try lra.
    destruct (percentile_defined sortedNPV N 0.75 Hlen HN) as [v75 H75]; try lra.
    destruct (percentile_defined sortedNPV N 0.9 Hlen HN) as [v90 H90]; try lra.
    exists v10, v25, v50, v75, v90.
    repeat split; try assumption.
    + apply (percentile_ordered sortedNPV N 0.1 0.25); auto; lra.
    + apply (percentile_ordered sortedNPV N 0.25 0.5); auto; lra.
    + apply (percentile_ordered sortedNPV N 0.5 0.75); auto; lra.
    + apply (percentile_ordered sortedNPV N 0.75 0.9); auto; lra.
Qed.

Lemma monte_carlo_result_shape_witness :
  (1 <= 2)%nat /\
  let r := runMonteCarloSimulation falling_source scenario_params 2 in
  length (npvDistribution r) = 2%nat /\
  length (irrDistribution r) = 2%nat /\
  0 <= probabilityOfPositiveNPV r <= 1 /\
  exists v10 v25 v50 v75 v90,
    MC.p10 (npvPercentiles r) = Some v10 /\
    MC.p25 (npvPercentiles r) = Some v25 /\
    MC.p50 (npvPercentiles r) = Some v50 /\
    MC.p75 (npvPercentiles r) = Some v75 /\
    MC.p90 (npvPercentiles r) = Some v90 /\
    v10 <= v25 /\ v25 <= v50 /\ v50 <= v75 /\ v75 <= v90.
Proof.
  assert (H : (1 <= 2)%nat) by lia.
  split; [exact H | exact (monte_carlo_result_shape falling_source scenario_params 2 H)].
Defined.

Lemma recorded_npv (random : nat -> Q) (params : ProjectParameters) (i : nat) :
  npv (recorded random params i) =
  calculateNPV (calculateFreeCashFlows (simulationParams_of random params i))
               (discountRate (simulationParams_of random params i)).
Proof. reflexivity. Qed.

(** C3 (violated by the code): with two iterations whose first NPV is the
    larger one, [npvResults.sort(...)] has reordered the returned
    [npvDistribution]: its entry 0 is the NPV recorded for iteration 1,
    which is smaller than the NPV recorded for iteration 0, while entry 0
    of [irrDistribution] is still the IRR recorded for iteration 0. *)
Theorem npvDistribution_is_reordered :
  let r := runMonteCarloSimulation falling_source scenario_params 2 in
  nth_error (npvDistribution r) 0 = Some (npv (recorded falling_source scenario_params 1)) /\
  nth_error (irrDistribution r) 0 = Some (irr (recorded falling_source scenario_params 0)) /\
  npv (recorded falling_source scenario_params 1) <
  npv (recorded falling_source scenario_params 0) /\
  ~ Forall2 Qeq (npvDistribution r)
      (map (fun i => npv (recorded falling_source scenario_params i)) (seq 0 2)).
Proof.
  cbv zeta. rewrite runMonteCarloSimulation_spec.
  cbn [npvDistribution irrDistribution seq map JS.sort JS.insert nth_error].
  assert (Hlt : npv (recorded falling_source scenario_params 1) <
                npv (recorded falling_source scenario_params 0)).
  { rewrite !recorded_npv. vm_compute. reflexivity. }
  destruct (Qle_bool (npv (recorded falling_source scenario_params 0)
                      - npv (recorded falling_source scenario_params 1)) 0) eqn:E.
  { apply Qle_bool_iff in E. lra. }
  repeat split; try assumption.
  intro H. apply Forall2_cons_iff in H. destruct H as [Hxy _]. lra.
Qed.

(** ** Dependence of a run on the random source *)

Lemma recorded_ext (random1 random2 : nat -> Q) (params : ProjectParameters) (n i : nat) :
  (forall k, (k < 3 * n)%nat -> random1 k = random2 k) -> (i < n)%nat ->
  recorded random1 params i = recorded random2 params i.
Proof.
  intros Hsame Hi. unfold recorded, simulationParams_of.
  rewrite !Hsame by lia. reflexivity.
Qed.

(** C4 (as amended): [runMonteCarloSimulation] takes no seed; its result is
    determined by the parameters, the iteration count and the 3 x iterations
    values that [Math.random()] returns during the run: two runs that see
    the same draws return the same result. *)
Theorem monte_carlo_determined_by_draws (random1 random2 : nat -> Q)
        (params : ProjectParameters) (iterations : nat)
        (Hsame : forall k, (k < 3 * iterations)%nat -> random1 k = random2 k) :
  runMonteCarloSimulation random1 params iterations =
  runMonteCarloSimulation random2 params iterations.
Proof.
  rewrite !runMonteCarloSimulation_spec. cbv zeta.
  assert (Hnpv : map (fun i => npv (recorded random1 params i)) (seq 0 iterations) =
                 map (fun i => npv (recorded random2 params i)) (seq 0 iterations)).
  { apply map_ext_in. intros i Hi. apply in_seq in Hi.
    rewrite (recorded_ext random1 random2 params iterations i); auto. lia. }
  assert (Hirr : map (fun i => irr (recorded random1 params i)) (seq 0 iterations) =
                 map (fun i => irr (recorded random2 params i)) (seq 0 iterations)).
  { apply map_ext_in. intros i Hi. apply in_seq in Hi.
    rewrite (recorded_ext random1 random2 params iterations i); auto. lia. }
  rewrite Hnpv, Hirr. reflexivity.
Qed.

Lemma monte_carlo_determined_by_draws_witness :
  (forall k, (k < 3 * 1)%nat -> constant_source 0.5 k = late_source k) /\
  runMonteCarloSimulation (constant_source 0.5) scenario_params 1 =
  runMonteCarloSimulation late_source scenario_params 1.
Proof.
  assert (H : forall k, (k < 3 * 1)%nat -> constant_source 0.5 k = late_source k).
  { intros k Hk. unfold constant_source, late_source.
    destruct (Nat.ltb_spec k 3); [reflexivity | lia]. }
  split; [exact H |
          exact (monte_carlo_determined_by_draws _ _ scenario_params 1%nat H)].
Defined.

(** C4 (as stated, refuted): two runs with the same parameters and the same
    iteration count return different results when [Math.random()] returns
    different values; no seed enters the computation. *)
Lemma same_inputs_different_results :
  let r1 := runMonteCarloSimulation (constant_source 0.5) scenario_params 1 in
  let r2 := runMonteCarloSimulation (constant_source 0.9) scenario_params 1 in
  r1 <> r2 /\
  ~ Forall2 Qeq (npvDistribution r1) (npvDistribution r2) /\
  ~ expectedNPV r1 == expectedNPV r2.
Proof.
  cbv zeta.
  assert (Hneq : ~ npv (recorded (constant_source 0.5) scenario_params 0) ==
                   npv (recorded (constant_source 0.9) scenario_params 0)).
  { rewrite !recorded_npv. vm_compute. discriminate. }
  assert (Hd : ~ Forall2 Qeq
                 (npvDistribution
                    (runMonteCarloSimulation (constant_source 0.5) scenario_params 1))
                 (npvDistribution
                    (runMonteCarloSimulation (constant_source 0.9) scenario_params 1))).
  { rewrite !runMonteCarloSimulation_spec.
    cbn [npvDistribution seq map JS.sort JS.insert].
    intro H. apply Forall2_cons_iff in H. destruct H as [Hxy _]. contradiction. }
  split; [|split].
  - intro Heq. apply Hd. rewrite Heq. apply Forall2_Qeq_refl.
  - exact Hd.
  - rewrite !runMonteCarloSimulation_spec.
    cbn [expectedNPV seq map JS.sort JS.insert].
    unfold sum_list, JS.reduce. cbn [JS.reduce_from].
    intro H. apply Hneq.
    assert (Hone : JS.num 1 == 1) by reflexivity.
    rewrite Hone in H. unfold Qdiv in H.
    setoid_replace (/ 1) with 1 in H by reflexivity.
    rewrite !Qmult_1_r, !Qplus_0_l in H. exact H.
Qed.

(** ** Parameters outside the documented domain, and short sequences *)

Lemma or_zero_index_pad (n : nat) (a : list Q) (i : Z) :
  JS.or_zero (JS.index (pad_zeros n a) i) = JS.or_zero (JS.index a i).
Proof.
  unfold JS.index, pad_zeros. destruct (i <? 0)%Z; [reflexivity|].
  destruct (Nat.lt_ge_cases (Z.to_nat i) (length a)) as [Hlt|Hge].
  - now rewrite nth_error_app1.
  - rewrite nth_error_app2 by exact Hge.
    apply nth_error_None in Hge. rewrite Hge.
    destruct (nth_error (repeat 0 (n - length a)) (Z.to_nat i - length a)) as [v|] eqn:E;
      [|reflexivity].
    apply nth_error_In, repeat_spec in E. subst v. reflexivity.
Qed.

Lemma calculateFreeCashFlows_padded (params : ProjectParameters) :
  calculateFreeCashFlows (padded params) = calculateFreeCashFlows params.
Proof.
  rewrite !calculateFreeCashFlows_shape. unfold yearly_flows.
  change (projectTimeline (padded params)) with (projectTimeline params).
  f_equal. f_equal. apply map_ext. intro year.
  unfold fcf_year, revenue_of, operatingCost_of, padded, with_inputs.
  cbn [annualRevenues operatingCosts initialInvestment depreciationRate taxRate].
  now rewrite !or_zero_index_pad.
Qed.

(** C2 (as amended): [computeMetrics] validates nothing and never fails.
    For every parameter record, whatever its timeline and rates, it returns
    a metrics value, whose freeCashFlows has one entry for the initial
    outlay and one per year of the timeline; revenue and cost sequences
    shorter than the timeline count as continued with zeros: the cash flows,
    npv, irr and paybackPeriod are those of the sequences extended with
    explicit zeros. *)
Theorem computeMetrics_never_fails (params : ProjectParameters) :
  exists m,
    computeMetrics params = Returned m /\
    length (freeCashFlows m) = S (Z.to_nat (projectTimeline params)) /\
    freeCashFlows m = freeCashFlows (calculateMetrics (padded params)) /\
    npv m = npv (calculateMetrics (padded params)) /\
    irr m = irr (calculateMetrics (padded params)) /\
    paybackPeriod m = paybackPeriod (calculateMetrics (padded params)).
Proof.
  exists (calculateMetrics params). split; [reflexivity|].
  rewrite !freeCashFlows_calculateMetrics, !npv_calculateMetrics, !irr_calculateMetrics,
    !paybackPeriod_calculateMetrics, calculateFreeCashFlows_padded.
  split; [apply calculateFreeCashFlows_length|].
  repeat split.
Qed.

(** C2 (as stated, refuted): with a timeline of 0 years, and with a tax
    rate of 150%, the parameters are outside the documented domain and
    [computeMetrics] returns a metrics value instead of failing with
    InvalidParameterError. *)
Lemma out_of_domain_parameters_are_accepted :
  (~ in_documented_domain zero_timeline_params /\
   computeMetrics zero_timeline_params <> Thrown InvalidParameterError /\
   computeMetrics zero_timeline_params = Returned (calculateMetrics zero_timeline_params)) /\
  (~ in_documented_domain high_tax_params /\
   computeMetrics high_tax_params <> Thrown InvalidParameterError /\
   computeMetrics high_tax_params = Returned (calculateMetrics high_tax_params) /\
   Forall2 Qeq (freeCashFlows (calculateMetrics high_tax_params)) [-100000; -20000]).
Proof.
  repeat split; try discriminate.
  - intros (Ht & _). simpl in Ht. lia.
  - intros (_ & Htax & _). simpl in Htax. lra.
  - rewrite freeCashFlows_calculateMetrics. repeat constructor; vm_compute; reflexivity.
Qed.

(** * Further properties of the calculator *)

(** ** Valuation *)

Lemma reduce_from_Qeq {A : Type} (f g : Q -> A -> nat -> Q) (a : list A) (k : nat)
      (acc acc' : Q) :
  (forall u v x i, u == v -> f u x i == g v x i) -> acc == acc' ->
  JS.reduce_from f a k acc == JS.reduce_from g a k acc'.
Proof.
  intros Hfg. revert k acc acc'.
  induction a as [|x a IH]; intros k acc acc' Hacc; simpl; auto.
Qed.

Lemma pow_one (n : nat) : JS.pow (1 + 0) n == 1.
Proof.
  unfold JS.pow. assert (H : 1 + 0 == 1) by ring. rewrite H. apply Qpower_1.
Qed.

(** X1: at a discount rate of 0 the NPV of any sequence of flows is their
    plain sum. *)
Theorem npv_at_zero_rate_is_sum (cashFlows : list Q) :
  calculateNPV cashFlows 0 == sum_list cashFlows.
Proof.
  unfold calculateNPV, sum_list, JS.reduce.
  apply reduce_from_Qeq; [|reflexivity].
  intros u v x i Huv. rewrite Huv, pow_one. field.
Qed.

Lemma sum_map_from (f : Q -> nat -> Q) (a : list Q) (k : nat) (acc : Q) :
  JS.reduce_from (fun sum x _ => sum + x) (JS.map_from f a k) 0%nat acc ==
  JS.reduce_from (fun sum x index => sum + f x index) a k acc.
Proof.
  revert k acc. generalize 0%nat.
  induction a as [|x a IH]; intros j k acc; simpl; [reflexivity|]. apply IH.
Qed.

Lemma map_from_length {A B : Type} (f : A -> nat -> B) (a : list A) (k : nat) :
  length (JS.map_from f a k) = length a.
Proof.
  revert k. induction a as [|x a IH]; intro k; simpl; [reflexivity | now rewrite IH].
Qed.

(** X2: for any parameters the three per-period sequences of the metrics
    have the same length, one entry for the outlay and one per year of the
    timeline, and the npv is the sum of the present values. *)
Theorem present_values_sum_to_npv (params : ProjectParameters) :
  let m := calculateMetrics params in
  length (freeCashFlows m) = S (Z.to_nat (projectTimeline params)) /\
  length (cumulativeCashFlows m) = length (freeCashFlows m) /\
  length (presentValues m) = length (freeCashFlows m) /\
  npv m == sum_list (presentValues m).
Proof.
  cbv zeta.
  rewrite freeCashFlows_calculateMetrics, cumulativeCashFlows_calculateMetrics,
    presentValues_calculateMetrics, npv_calculateMetrics.
  split; [apply calculateFreeCashFlows_length|].
  split; [apply cumulative_running_sum|].
  split; [apply map_from_length|].
  unfold calculateNPV, sum_list, JS.mapi, JS.reduce.
  symmetry. apply sum_map_from.
Qed.

(** ** Payback period *)

Lemma firstn_app_exact {A : Type} (a b : list A) : firstn (length a) (a ++ b) = a.
Proof.
  rewrite firstn_app, Nat.sub_diag, firstn_all. simpl. apply app_nil_r.
Qed.

Lemma firstn_snoc_exact {A : Type} (a b : list A) (x : A) :
  firstn (S (length a)) (a ++ x :: b) = a ++ [x].
Proof.
  replace (a ++ x :: b) with ((a ++ [x]) ++ b) by (rewrite <- app_assoc; reflexivity).
  replace (S (length a)) with (length (a ++ [x])) by (rewrite length_app; simpl; lia).
  apply firstn_app_exact.
Qed.

(** The scan over [rest] after the flows [done], all of whose running sums
    were negative. *)
Lemma payback_loop_spec (cashFlows rest done : list Q) :
  cashFlows = done ++ rest ->
  (forall j, (j < length done)%nat -> sum_list (firstn (S j) cashFlows) < 0) ->
  let r := payback_loop cashFlows rest (length done) (sum_list done) in
  ((forall j, (j < length cashFlows)%nat -> sum_list (firstn (S j) cashFlows) < 0) /\
   r = JS.num (length cashFlows)) \/
  exists i, (i < length cashFlows)%nat /\
    0 <= sum_list (firstn (S i) cashFlows) /\
    (forall j, (j < i)%nat -> sum_list (firstn (S j) cashFlows) < 0) /\
    ((i = 0%nat /\ r = 0) \/
     ((0 < i)%nat /\
      exists flow, nth_error cashFlows i = Some flow /\ 0 < flow /\
        r == JS.num i - 1 + - sum_list (firstn i cashFlows) / flow /\
        JS.num i - 1 < r /\ r <= JS.num i)).
Proof.
  cbv zeta. revert done. induction rest as [|flow rest IH]; intros done Hcf Hneg.
  - left. rewrite app_nil_r in Hcf. subst done. split; [exact Hneg | reflexivity].
  - cbn [payback_loop]. rewrite <- sum_list_snoc.
    assert (Hfirst : firstn (S (length done)) cashFlows = done ++ [flow])
      by (rewrite Hcf; apply firstn_snoc_exact).
    destruct (Qle_bool 0 (sum_list (done ++ [flow]))) eqn:E.
    + right. apply Qle_bool_iff in E. exists (length done).
      split; [rewrite Hcf, length_app; simpl; lia|].
      split; [now rewrite Hfirst|]. split; [exact Hneg|].
      destruct (length done) as [|n] eqn:En.
      * left. split; reflexivity.
      * right. split; [lia|]. exists flow.
        assert (Hprev : sum_list done < 0).
        { specialize (Hneg n). rewrite <- En in Hneg at 2.
          rewrite Hcf, firstn_app_exact in Hneg. apply Hneg. lia. }
        rewrite sum_list_snoc in E |- *.
        assert (Hflow : 0 < flow) by lra.
        assert (Hdone : firstn (S n) cashFlows = done)
          by (rewrite <- En, Hcf; apply firstn_app_exact).
        rewrite Hdone.
        assert (Habs : Qabs (sum_list done + flow - flow) == - sum_list done).
        { setoid_replace (sum_list done + flow - flow) with (sum_list done) by ring.
          apply Qabs_neg. lra. }
        cbn [Nat.eqb]. rewrite Habs.
        split; [rewrite Hcf, <- En, nth_error_app2, Nat.sub_diag by lia; reflexivity|].
        split; [exact Hflow|]. split; [reflexivity|].
        assert (Hratio : 0 < - sum_list done / flow /\ - sum_list done / flow <= 1).
        { split.
          - apply Qlt_shift_div_l; lra.
          - apply Qle_shift_div_r; lra. }
        split; lra.
    + assert (E' : sum_list (done ++ [flow]) < 0).
      { apply Qnot_le_lt. intro H. apply Qle_bool_iff in H. congruence. }
      replace (S (length done)) with (length (done ++ [flow]))
        by (rewrite length_app; simpl; lia).
      apply IH.
      * rewrite <- app_assoc. exact Hcf.
      * intros j Hj. rewrite length_app in Hj. simpl in Hj.
        destruct (Nat.eq_dec j (length done)) as [->|Hne].
        -- now rewrite Hfirst.
        -- apply Hneg. lia.
Qed.

(** X4: the payback period is never negative and never exceeds the number
    of flows. *)
Theorem payback_period_bounds (cashFlows : list Q) :
  0 <= calculatePaybackPeriod cashFlows <= JS.num (length cashFlows).
Proof.
  assert (Hneg : forall j, (j < length (@nil Q))%nat ->
                           sum_list (firstn (S j) cashFlows) < 0)
    by (simpl; intros j Hj; lia).
  pose proof (payback_loop_spec cashFlows cashFlows [] eq_refl Hneg) as Hspec.
  cbv zeta in Hspec. change (payback_loop cashFlows cashFlows (length []) (sum_list []))
    with (calculatePaybackPeriod cashFlows) in Hspec.
  destruct Hspec as [[_ Hr]|(i & Hi & _ & _ & [[_ Hr]|(Hpos & flow & _ & _ & _ & Hlo & Hhi)])].
  - rewrite Hr. split; [|apply Qle_refl]. change 0 with (JS.num 0). apply num_le. lia.
  - rewrite Hr. split; [apply Qle_refl|]. change 0 with (JS.num 0). apply num_le. lia.
  - pose proof (num_pos i Hpos) as H1.
    pose proof (num_le i (length cashFlows) (Nat.lt_le_incl _ _ Hi)) as H2.
    split; lra.
Qed.

(** ** More on the IRR solver *)








Lemma irr_loop_flat_derivative (n : nat) (cashFlows : list Q) (rate : Number.t) :
  Number.ltb (Number.abs (irr_derivative cashFlows rate)) tolerance = true ->
  irr_loop n cashFlows rate = (rate, []).
Proof.
  intro H. destruct n as [|n]; [reflexivity|].
  cbn [irr_loop]. rewrite H. reflexivity.
Qed.

(** With a single flow the derivative is 0 * flow / (1 + guess), which is
    zero at any finite guess other than -1: the loop stops at once. *)
Lemma calculateIRR_single_flow (flow guess : Q) :
  ~ 1 + guess == 0 -> calculateIRR [flow] guess = Number.Finite guess.
Proof.
  intro Hg. unfold calculateIRR. rewrite irr_loop_flat_derivative; [reflexivity|].
  unfold irr_derivative, JS.reduce. cbn [JS.reduce_from].
  destruct (div_by_pow_finite (JS.num 0 * flow) guess (0 + 1) Hg) as (q & -> & Hq).
  cbn [Number.sub Number.opp Number.add Number.abs Number.ltb].
  apply Qlt_bool_iff.
  assert (H0 : 0 + - q == 0).
  { rewrite Hq. change (JS.num 0) with 0. unfold Qdiv. ring. }
  rewrite H0. reflexivity.
Qed.

Lemma calculateFreeCashFlows_no_years (params : ProjectParameters) :
  (projectTimeline params <= 0)%Z ->
  calculateFreeCashFlows params =
  [ - initialInvestment params - workingCapital params
    + (terminalValue params + workingCapital params) ].
Proof.
  intro HT. rewrite calculateFreeCashFlows_shape. unfold yearly_flows.
  replace (Z.to_nat (projectTimeline params)) with 0%nat by lia.
  reflexivity.
Qed.

(** X6: with a timeline below 1 the yearly loop does not run: the only
    cash flow is the outlay with the terminal recovery added to it, the IRR
    solver stops at once and returns its initial guess 0.1, the npv is
    terminalValue - initialInvestment, and the payback period is 0 when that
    is not negative and 1 otherwise. *)
Theorem metrics_without_years (params : ProjectParameters)
        (Htimeline : (projectTimeline params <= 0)%Z) :
  let m := calculateMetrics params in
  freeCashFlows m =
    [ - initialInvestment params - workingCapital params
      + (terminalValue params + workingCapital params) ] /\
  irr m = 0.1 /\
  npv m == terminalValue params - initialInvestment params /\
  (0 <= terminalValue params - initialInvestment params -> paybackPeriod m = 0) /\
  (terminalValue params - initialInvestment params < 0 -> paybackPeriod m == 1).
Proof.
  cbv zeta.
  rewrite freeCashFlows_calculateMetrics, irr_calculateMetrics, npv_calculateMetrics,
    paybackPeriod_calculateMetrics, calculateFreeCashFlows_no_years by exact Htimeline.
  split; [reflexivity|].
  split; [apply calculateIRR_single_flow; vm_compute; discriminate|].
  split.
  - unfold calculateNPV, JS.reduce. cbn [JS.reduce_from]. rewrite pow_0. field.
  - unfold calculatePaybackPeriod. cbn [payback_loop].
    set (x := - initialInvestment params - workingCapital params
              + (terminalValue params + workingCapital params)).
    assert (Hx : x == terminalValue params - initialInvestment params)
      by (unfold x; ring).
    destruct (Qle_bool 0 (0 + x)) eqn:E.
    + split; [reflexivity|]. intro Hneg. apply Qle_bool_iff in E. lra.
    + split; [|reflexivity]. intro Hpos.
      assert (H : Qle_bool 0 (0 + x) = true) by (apply Qle_bool_iff; lra).
      congruence.
Qed.

Lemma metrics_without_years_witness :
  (projectTimeline zero_timeline_params <= 0)%Z /\
  let m := calculateMetrics zero_timeline_params in
  freeCashFlows m =
    [ - initialInvestment zero_timeline_params - workingCapital zero_timeline_params
      + (terminalValue zero_timeline_params + workingCapital zero_timeline_params) ] /\
  irr m = 0.1 /\
  npv m == terminalValue zero_timeline_params - initialInvestment zero_timeline_params /\
  (0 <= terminalValue zero_timeline_params - initialInvestment zero_timeline_params ->
   paybackPeriod m = 0) /\
  (terminalValue zero_timeline_params - initialInvestment zero_timeline_params < 0 ->
   paybackPeriod m == 1).
Proof.
  assert (H : (projectTimeline zero_timeline_params <= 0)%Z) by (simpl; lia).
  exact (conj H (metrics_without_years zero_timeline_params H)).
Defined.

(** ** More on the free cash flows *)

Lemma or_zero_index_firstn (n : nat) (a : list Q) (year : nat) :
  (1 <= year <= n)%nat ->
  JS.or_zero (JS.index (firstn n a) (Z.of_nat year - 1)) =
  JS.or_zero (JS.index a (Z.of_nat year - 1)).
Proof.
  intros Hy. destruct year as [|y]; [lia|].
  rewrite !index_pred. now rewrite nth_error_firstn, (proj2 (Nat.ltb_lt y n)) by lia.
Qed.

(** X7: only the first [projectTimeline] entries of the revenue and cost
    sequences enter the free cash flows: replacing the sequences by others
    with the same first [projectTimeline] entries leaves the cash flows, and
    with them npv, irr and paybackPeriod, unchanged. *)
Theorem entries_beyond_timeline_are_ignored (params : ProjectParameters)
        (revenues costs : list Q)
        (Hrev : firstn (Z.to_nat (projectTimeline params)) revenues =
                firstn (Z.to_nat (projectTimeline params)) (annualRevenues params))
        (Hcost : firstn (Z.to_nat (projectTimeline params)) costs =
                 firstn (Z.to_nat (projectTimeline params)) (operatingCosts params)) :
  let m := calculateMetrics params in
  let m' := calculateMetrics (with_inputs params revenues costs (discountRate params)) in
  freeCashFlows m' = freeCashFlows m /\
  npv m' = npv m /\ irr m' = irr m /\ paybackPeriod m' = paybackPeriod m.
Proof.
  cbv zeta.
  assert (H : calculateFreeCashFlows
                (with_inputs params revenues costs (discountRate params)) =
              calculateFreeCashFlows params).
  { rewrite !calculateFreeCashFlows_shape. unfold yearly_flows.
    change (projectTimeline (with_inputs params revenues costs (discountRate params)))
      with (projectTimeline params).
    f_equal. f_equal. apply map_ext_in. intros year Hy. apply in_seq in Hy.
    unfold fcf_year, revenue_of, operatingCost_of, with_inputs.
    cbn [annualRevenues operatingCosts initialInvestment depreciationRate taxRate].
    rewrite <- (or_zero_index_firstn (Z.to_nat (projectTimeline params)) revenues) by lia.
    rewrite <- (or_zero_index_firstn (Z.to_nat (projectTimeline params)) costs) by lia.
    rewrite Hrev, Hcost, !or_zero_index_firstn by lia. reflexivity. }
  rewrite !freeCashFlows_calculateMetrics, !npv_calculateMetrics, !irr_calculateMetrics,
    !paybackPeriod_calculateMetrics, H.
  repeat split.
Qed.

Lemma entries_beyond_timeline_are_ignored_witness :
  firstn (Z.to_nat (projectTimeline scenario_params)) [150000; 999] =
  firstn (Z.to_nat (projectTimeline scenario_params)) (annualRevenues scenario_params) /\
  firstn (Z.to_nat (projectTimeline scenario_params)) [50000; 1; 2] =
  firstn (Z.to_nat (projectTimeline scenario_params)) (operatingCosts scenario_params) /\
  let m := calculateMetrics scenario_params in
  let m' := calculateMetrics (with_inputs scenario_params [150000; 999] [50000; 1; 2]
                                          (discountRate scenario_params)) in
  freeCashFlows m' = freeCashFlows m /\
  npv m' = npv m /\ irr m' = irr m /\ paybackPeriod m' = paybackPeriod m.
Proof.
  assert (H1 : firstn (Z.to_nat (projectTimeline scenario_params)) [150000; 999] =
               firstn (Z.to_nat (projectTimeline scenario_params))
                      (annualRevenues scenario_params)) by reflexivity.
  assert (H2 : firstn (Z.to_nat (projectTimeline scenario_params)) [50000; 1; 2] =
               firstn (Z.to_nat (projectTimeline scenario_params))
                      (operatingCosts scenario_params)) by reflexivity.
  exact (conj H1 (conj H2
           (entries_beyond_timeline_are_ignored scenario_params _ _ H1 H2))).
Defined.

Lemma sum_list_acc (a : list Q) (k : nat) (acc : Q) :
  JS.reduce_from (fun sum x _ => sum + x) a k acc == acc + sum_list a.
Proof.
  unfold sum_list, JS.reduce. revert k acc. generalize 0%nat.
  induction a as [|x a IH]; intros j k acc; simpl.
  - ring.
  - rewrite (IH (S j) (S k) (acc + x)), (IH (S j) (S j) (0 + x)). ring.
Qed.

Lemma sum_list_cons (x : Q) (a : list Q) : sum_list (x :: a) == x + sum_list a.
Proof.
  unfold sum_list at 1, JS.reduce. cbn [JS.reduce_from].
  rewrite sum_list_acc. ring.
Qed.

Lemma add_to_last_snoc (a : list Q) (x v : Q) :
  add_to_last (a ++ [x]) v = a ++ [x + v].
Proof.
  unfold add_to_last, JS.store.
  rewrite length_app. cbn [length]. replace (length a + 1 - 1)%nat with (length a) by lia.
  rewrite firstn_app_exact.
  rewrite app_nth2, Nat.sub_diag by lia. cbn [nth].
  rewrite skipn_all2 by (rewrite length_app; simpl; lia). reflexivity.
Qed.

Lemma sum_list_add_to_last (a : list Q) (v : Q) :
  a <> [] -> sum_list (add_to_last a v) == sum_list a + v.
Proof.
  intro Hne. destruct (exists_last Hne) as (b & x & ->).
  rewrite add_to_last_snoc, !sum_list_snoc. ring.
Qed.

(** X8: the working capital paid at the start is recovered at the end, so
    it cancels in the total of the free cash flows: for any parameters the
    flows sum to terminalValue - initialInvestment plus the yearly operating
    flows. *)
Theorem working_capital_cancels_in_total (params : ProjectParameters) :
  sum_list (freeCashFlows (calculateMetrics params)) ==
  terminalValue params - initialInvestment params
  + sum_list (map (fun year => yl_freeCashFlow (fcf_year params year))
                  (seq 1 (Z.to_nat (projectTimeline params)))).
Proof.
  rewrite freeCashFlows_calculateMetrics, calculateFreeCashFlows_shape.
  rewrite sum_list_add_to_last by discriminate.
  rewrite sum_list_cons. unfold yearly_flows. ring.
Qed.

(** The entries of the free cash flows after the outlay: the yearly flow,
    with the terminal recovery added in the final year. *)
Lemma calculateFreeCashFlows_nth (params : ProjectParameters) (year : nat) :
  (1 <= year <= Z.to_nat (projectTimeline params))%nat ->
  nth_error (calculateFreeCashFlows params) year =
  Some (if Nat.eqb year (Z.to_nat (projectTimeline params))
        then yl_freeCashFlow (fcf_year params year)
             + (terminalValue params + workingCapital params)
        else yl_freeCashFlow (fcf_year params year)).
Proof.
  intro Hy. rewrite calculateFreeCashFlows_shape. unfold yearly_flows.
  destruct (Z.to_nat (projectTimeline params)) as [|n]; [lia|].
  rewrite seq_S, map_app. cbn [map].
  change (?c :: ?a ++ [?x]) with ((c :: a) ++ [x]).
  rewrite add_to_last_snoc.
  set (f := fun y => yl_freeCashFlow (fcf_year params y)).
  destruct (Nat.eqb_spec year (S n)) as [->|Hne].
  - rewrite nth_error_app2 by (simpl; rewrite length_map, length_seq; lia).
    cbn [length]. rewrite length_map, length_seq, Nat.sub_diag. reflexivity.
  - rewrite nth_error_app1 by (simpl; rewrite length_map, length_seq; lia).
    destruct year as [|y]; [lia|]. cbn [nth_error].
    rewrite nth_error_map, nth_error_seq.
    destruct (Nat.ltb_spec y n); [reflexivity | lia].
Qed.

(** X9: with a tax rate in [0,1], the free cash flow of every year of the
    timeline, the terminal recovery of the final year set apart, is at most
    revenue - cost; it equals revenue - cost when ebit is not positive (a
    loss is not taxed and earns no credit), and it is at least the
    depreciation when ebit is positive. *)
Theorem yearly_flow_bounds (params : ProjectParameters) (year : nat)
        (Hyear : (1 <= year <= Z.to_nat (projectTimeline params))%nat)
        (Htax : 0 <= taxRate params <= 1) :
  exists flow,
    nth_error (freeCashFlows (calculateMetrics params)) year = Some flow /\
    let terminal :=
      if Nat.eqb year (Z.to_nat (projectTimeline params))
      then terminalValue params + workingCapital params else 0 in
    let margin := revenue_of params year - operatingCost_of params year in
    let depreciation := initialInvestment params * depreciationRate params in
    flow - terminal <= margin /\
    (margin - depreciation <= 0 -> flow - terminal == margin) /\
    (0 < margin - depreciation -> depreciation <= flow - terminal).
Proof.
  rewrite freeCashFlows_calculateMetrics, calculateFreeCashFlows_nth by exact Hyear.
  eexists. split; [reflexivity|]. cbv zeta.
  assert (Hflow :
    (if Nat.eqb year (Z.to_nat (projectTimeline params))
     then yl_freeCashFlow (fcf_year params year)
          + (terminalValue params + workingCapital params)
     else yl_freeCashFlow (fcf_year params year))
    - (if Nat.eqb year (Z.to_nat (projectTimeline params))
       then terminalValue params + workingCapital params else 0)
    == yl_freeCashFlow (fcf_year params year)).
  { destruct (Nat.eqb year (Z.to_nat (projectTimeline params))); ring. }
  rewrite Hflow. unfold fcf_year. cbn [yl_freeCashFlow].
  set (d := initialInvestment params * depreciationRate params).
  set (e := revenue_of params year - operatingCost_of params year - d).
  assert (He : e == revenue_of params year - operatingCost_of params year - d)
    by reflexivity.
  clearbody e d.
  destruct (JS.Qlt_bool 0 e) eqn:E.
  - apply Qlt_bool_iff in E. repeat split; intros; nra.
  - apply Qlt_bool_false_iff in E. repeat split; intros; lra.
Qed.

Lemma yearly_flow_bounds_witness :
  (1 <= 1 <= Z.to_nat (projectTimeline scenario_params))%nat /\
  0 <= taxRate scenario_params <= 1 /\
  exists flow,
    nth_error (freeCashFlows (calculateMetrics scenario_params)) 1 = Some flow /\
    let terminal :=
      if Nat.eqb 1 (Z.to_nat (projectTimeline scenario_params))
      then terminalValue scenario_params + workingCapital scenario_params else 0 in
    let margin := revenue_of scenario_params 1 - operatingCost_of scenario_params 1 in
    let depreciation :=
      initialInvestment scenario_params * depreciationRate scenario_params in
    flow - terminal <= margin /\
    (margin - depreciation <= 0 -> flow - terminal == margin) /\
    (0 < margin - depreciation -> depreciation <= flow - terminal).
Proof.
  assert (H1 : (1 <= 1 <= Z.to_nat (projectTimeline scenario_params))%nat)
    by (simpl; lia).
  assert (H2 : 0 <= taxRate scenario_params <= 1) by (simpl; lra).
  exact (conj H1 (conj H2 (yearly_flow_bounds scenario_params 1 H1 H2))).
Defined.

(** ** More on the scenario analysis *)

(** X10: when revenues and costs are non-negative and the tax rate is at
    most 1, the scenarios are ordered flow by flow: every free cash flow of
    the worst case is at most the base case's, which is at most the best
    case's, whatever the discount rate. *)
Theorem scenario_flows_ordering (params : ProjectParameters)
        (Hrev : Forall (fun rev => 0 <= rev) (annualRevenues params))
        (Hcost : Forall (fun cost => 0 <= cost) (operatingCosts params))
        (Htax : taxRate params <= 1) :
  let s := calculateScenarioAnalysis params in
  Forall2 Qle (freeCashFlows (worstCase s)) (freeCashFlows (baseCase s)) /\
  Forall2 Qle (freeCashFlows (baseCase s)) (freeCashFlows (bestCase s)).
Proof.
  cbv zeta. unfold calculateScenarioAnalysis. cbn [bestCase baseCase worstCase].
  rewrite !freeCashFlows_calculateMetrics.
  split; apply calculateFreeCashFlows_monotone; try reflexivity; try exact Htax;
    intro year;
    unfold revenue_of, operatingCost_of, bestCaseParams, worstCaseParams, with_inputs;
    cbn [annualRevenues operatingCosts];
    first [ apply or_zero_scaled_up; [assumption | lra]
          | apply or_zero_scaled_down; [assumption | lra] ].
Qed.

Lemma scenario_flows_ordering_witness :
  Forall (fun rev => 0 <= rev) (annualRevenues two_year_params) /\
  Forall (fun cost => 0 <= cost) (operatingCosts two_year_params) /\
  taxRate two_year_params <= 1 /\
  let s := calculateScenarioAnalysis two_year_params in
  Forall2 Qle (freeCashFlows (worstCase s)) (freeCashFlows (baseCase s)) /\
  Forall2 Qle (freeCashFlows (baseCase s)) (freeCashFlows (bestCase s)).
Proof.
  assert (Hrev : Forall (fun rev => 0 <= rev) (annualRevenues two_year_params))
    by (repeat constructor; simpl; lra).
  assert (Hcost : Forall (fun cost => 0 <= cost) (operatingCosts two_year_params))
    by (repeat constructor; simpl; lra).
  assert (Htax : taxRate two_year_params <= 1) by (simpl; lra).
  exact (conj Hrev (conj Hcost (conj Htax
           (scenario_flows_ordering two_year_params Hrev Hcost Htax)))).
Defined.

Lemma roi_calculateMetrics (params : ProjectParameters) :
  roi (calculateMetrics params) =
  calculateROI (sum_list (annualRevenues params) - sum_list (operatingCosts params)
                - initialInvestment params)
               (initialInvestment params).
Proof. reflexivity. Qed.

Lemma sum_list_scaled (a : list Q) (c : Q) :
  sum_list (map (fun v => v * c) a) == sum_list a * c.
Proof.
  induction a as [|x a IH]; [reflexivity|].
  cbn [map]. rewrite !sum_list_cons, IH. ring.
Qed.

Lemma sum_list_nonneg (a : list Q) : Forall (fun v => 0 <= v) a -> 0 <= sum_list a.
Proof.
  induction 1 as [|x a Hx Ha IH]; [apply Qle_refl|].
  rewrite sum_list_cons. lra.
Qed.

Lemma calculateROI_monotone (g g' investment : Q) :
  0 <= investment -> g <= g' -> calculateROI g investment <= calculateROI g' investment.
Proof.
  intros HI Hg. unfold calculateROI.
  destruct (Qeq_bool investment 0) eqn:E; [apply Qle_refl|].
  apply Qeq_bool_neq in E.
  assert (Hpos : 0 < investment).
  { destruct (Qlt_le_dec 0 investment) as [H|H]; [exact H|].
    exfalso. apply E. lra. }
  apply Qmult_le_compat_r; [|lra]. apply discounted_le; assumption.
Qed.

(** X11: when revenues and costs are non-negative and the initial
    investment is not negative, the return on investment is ordered across
    the scenarios: worst case <= base case <= best case (all three are 0
    when the investment is 0). *)
Theorem scenario_roi_ordering (params : ProjectParameters)
        (Hrev : Forall (fun rev => 0 <= rev) (annualRevenues params))
        (Hcost : Forall (fun cost => 0 <= cost) (operatingCosts params))
        (Hinv : 0 <= initialInvestment params) :
  let s := calculateScenarioAnalysis params in
  roi (worstCase s) <= roi (baseCase s) /\ roi (baseCase s) <= roi (bestCase s).
Proof.
  cbv zeta. unfold calculateScenarioAnalysis. cbn [bestCase baseCase worstCase].
  rewrite !roi_calculateMetrics.
  unfold bestCaseParams, worstCaseParams, with_inputs.
  cbn [annualRevenues operatingCosts initialInvestment].
  pose proof (sum_list_nonneg _ Hrev) as Hr.
  pose proof (sum_list_nonneg _ Hcost) as Hc.
  split; apply calculateROI_monotone; try exact Hinv;
    rewrite !sum_list_scaled; lra.
Qed.

Lemma scenario_roi_ordering_witness :
  Forall (fun rev => 0 <= rev) (annualRevenues two_year_params) /\
  Forall (fun cost => 0 <= cost) (operatingCosts two_year_params) /\
  0 <= initialInvestment two_year_params /\
  let s := calculateScenarioAnalysis two_year_params in
  roi (worstCase s) <= roi (baseCase s) /\ roi (baseCase s) <= roi (bestCase s).
Proof.
  assert (Hrev : Forall (fun rev => 0 <= rev) (annualRevenues two_year_params))
    by (repeat constructor; simpl; lra).
  assert (Hcost : Forall (fun cost => 0 <= cost) (operatingCosts two_year_params))
    by (repeat constructor; simpl; lra).
  assert (Hinv : 0 <= initialInvestment two_year_params) by (simpl; lra).
  exact (conj Hrev (conj Hcost (conj Hinv
           (scenario_roi_ordering two_year_params Hrev Hcost Hinv)))).
Defined.

(** ** More on the Monte Carlo simulation *)

Lemma sum_list_perm (a b : list Q) : Permutation a b -> sum_list a == sum_list b.
Proof.
  induction 1 as [|x a b Hab IH|x y a|a b c Hab IHab Hbc IHbc].
  - reflexivity.
  - rewrite !sum_list_cons, IH. reflexivity.
  - rewrite !sum_list_cons. ring.
  - now rewrite IHab.
Qed.

Lemma filter_length_perm (p : Q -> bool) (a b : list Q) :
  Permutation a b -> length (filter p a) = length (filter p b).
Proof.
  induction 1 as [|x a b Hab IH|x y a|a b c Hab IHab Hbc IHbc]; simpl.
  - reflexivity.
  - destruct (p x); simpl; now rewrite IH.
  - destruct (p x), (p y); reflexivity.
  - now rewrite IHab.
Qed.

(** X12: sorting the NPV array does not change the statistics computed
    from it: for N >= 1 iterations the expected NPV is the mean of the NPVs
    recorded by the iterations, and the probability of a positive NPV is the
    number of iterations that recorded an NPV above 0, divided by N. *)
Theorem monte_carlo_statistics (random : nat -> Q) (params : ProjectParameters)
        (N : nat) (HN : (1 <= N)%nat) :
  let r := runMonteCarloSimulation random params N in
  let recorded_npvs := map (fun i => npv (recorded random params i)) (seq 0 N) in
  expectedNPV r == sum_list recorded_npvs / JS.num N /\
  probabilityOfPositiveNPV r =
  JS.num (length (filter (fun npv => JS.Qlt_bool 0 npv) recorded_npvs)) / JS.num N.
Proof.
  cbv zeta. rewrite runMonteCarloSimulation_spec.
  cbn [expectedNPV probabilityOfPositiveNPV].
  pose proof (num_pos N HN) as Hnum.
  split.
  - rewrite <- (sum_list_perm _ _ (sort_perm _)). reflexivity.
  - now rewrite <- (filter_length_perm _ _ _ (sort_perm _)).
Qed.

Lemma monte_carlo_statistics_witness :
  (1 <= 2)%nat /\
  let r := runMonteCarloSimulation falling_source scenario_params 2 in
  let recorded_npvs :=
    map (fun i => npv (recorded falling_source scenario_params i)) (seq 0 2) in
  expectedNPV r == sum_list recorded_npvs / JS.num 2 /\
  probabilityOfPositiveNPV r =
  JS.num (length (filter (fun npv => JS.Qlt_bool 0 npv) recorded_npvs)) / JS.num 2.
Proof.
  assert (H : (1 <= 2)%nat) by lia.
  exact (conj H (monte_carlo_statistics falling_source scenario_params 2 H)).
Defined.

Lemma index_In (a : list Q) (i : Z) (v : Q) : JS.index a i = Some v -> In v a.
Proof.
  unfold JS.index. destruct (i <? 0)%Z; [discriminate|]. apply nth_error_In.
Qed.

(** X13: the percentiles are samples, not interpolated values: for N >= 1
    iterations each of p10, p25, p50, p75 and p90 is the NPV recorded by one
    of the N iterations. *)
Theorem percentiles_are_samples (random : nat -> Q) (params : ProjectParameters)
        (N : nat) (HN : (1 <= N)%nat) :
  let ps := npvPercentiles (runMonteCarloSimulation random params N) in
  Forall (fun percentile =>
            exists v i, percentile = Some v /\ (i < N)%nat /\
                        v = npv (recorded random params i))
         [MC.p10 ps; MC.p25 ps; MC.p50 ps; MC.p75 ps; MC.p90 ps].
Proof.
  cbv zeta. rewrite runMonteCarloSimulation_spec.
  cbn [npvPercentiles MC.p10 MC.p25 MC.p50 MC.p75 MC.p90].
  set (npvs := map (fun i => npv (recorded random params i)) (seq 0 N)).
  assert (Hlen : length (JS.sort npvs) = N).
  { unfold npvs. now rewrite sort_length, length_map, length_seq. }
  assert (Hsample : forall q, 0 <= q -> q < 1 ->
            exists v i, JS.index (JS.sort npvs) (Qfloor (JS.num N * q)) = Some v /\
                        (i < N)%nat /\ v = npv (recorded random params i)).
  { intros q Hq0 Hq1.
    destruct (percentile_defined (JS.sort npvs) N q Hlen HN Hq0 Hq1) as [v Hv].
    pose proof (index_In _ _ _ Hv) as Hin.
    apply (Permutation_in _ (Permutation_sym (sort_perm npvs))) in Hin.
    unfold npvs in Hin. apply in_map_iff in Hin. destruct Hin as (i & Hi & Hseq).
    apply in_seq in Hseq. exists v, i. repeat split; auto; lia. }
  repeat constructor; apply Hsample; lra.
Qed.

Lemma percentiles_are_samples_witness :
  (1 <= 2)%nat /\
  let ps := npvPercentiles (runMonteCarloSimulation falling_source scenario_params 2) in
  Forall (fun percentile =>
            exists v i, percentile = Some v /\ (i < 2)%nat /\
                        v = npv (recorded falling_source scenario_params i))
         [MC.p10 ps; MC.p25 ps; MC.p50 ps; MC.p75 ps; MC.p90 ps].
Proof.
  assert (H : (1 <= 2)%nat) by lia.
  exact (conj H (percentiles_are_samples falling_source scenario_params 2 H)).
Defined.

(** X14: with 0 iterations the loop does not run and nothing is drawn: both
    distributions are empty and every percentile is undefined, whatever the
    parameters and the random source. *)
Theorem monte_carlo_without_iterations (random : nat -> Q) (params : ProjectParameters) :
  let r := runMonteCarloSimulation random params 0 in
  npvDistribution r = [] /\ irrDistribution r = [] /\
  npvPercentiles r =
  {| MC.p10 := None; MC.p25 := None; MC.p50 := None; MC.p75 := None; MC.p90 := None |} /\
  MC.drawn (snd (MC.simulation random params 0 MC.empty_world)) = 0%nat.
Proof.
  cbv zeta. rewrite runMonteCarloSimulation_spec. repeat split.
Qed.

Lemma or_zero_scaled (a : list Q) (c : Q) (i : Z) :
  JS.or_zero (JS.index (map (fun v => v * c) a) i) == JS.or_zero (JS.index a i) * c.
Proof.
  rewrite index_map. destruct (JS.index a i) as [v|]; cbn [option_map].
  - rewrite !or_zero_Some. reflexivity.
  - simpl. ring.
Qed.

Lemma or_zero_nonneg (a : list Q) (i : Z) :
  Forall (fun v => 0 <= v) a -> 0 <= JS.or_zero (JS.index a i).
Proof.
  intro Ha. destruct (JS.index a i) as [v|] eqn:E.
  - rewrite or_zero_Some. exact (index_Forall _ _ _ _ Ha E).
  - apply Qle_refl.
Qed.

(** X15: the perturbation of one iteration.  When the three values drawn
    for iteration [i] lie in [0,1), as [Math.random()] guarantees, and the
    base revenues, costs and discount rate are non-negative, then in the
    parameters simulated by that iteration every year's revenue lies within
    20% of the base revenue, every year's cost within 15% of the base cost,
    and the discount rate within 10% of the base rate. *)
Theorem simulated_parameters_stay_in_band (random : nat -> Q)
        (params : ProjectParameters) (i : nat)
        (Hu1 : 0 <= random (3 * i)%nat < 1)
        (Hu2 : 0 <= random (3 * i + 1)%nat < 1)
        (Hu3 : 0 <= random (3 * i + 2)%nat < 1)
        (Hrev : Forall (fun rev => 0 <= rev) (annualRevenues params))
        (Hcost : Forall (fun cost => 0 <= cost) (operatingCosts params))
        (Hrate : 0 <= discountRate params) :
  let simulated := simulationParams_of random params i in
  (forall year,
      0.8 * revenue_of params year <= revenue_of simulated year <=
      1.2 * revenue_of params year) /\
  (forall year,
      0.85 * operatingCost_of params year <= operatingCost_of simulated year <=
      1.15 * operatingCost_of params year) /\
  0.9 * discountRate params <= discountRate simulated <= 1.1 * discountRate params.
Proof.
  cbv zeta. unfold simulationParams_of, with_inputs.
  split; [|split].
  - intro year. unfold revenue_of. cbn [annualRevenues].
    rewrite or_zero_scaled.
    pose proof (or_zero_nonneg (annualRevenues params) (Z.of_nat year - 1) Hrev).
    split; nra.
  - intro year. unfold operatingCost_of. cbn [operatingCosts].
    rewrite or_zero_scaled.
    pose proof (or_zero_nonneg (operatingCosts params) (Z.of_nat year - 1) Hcost).
    split; nra.
  - cbn [discountRate]. split; nra.
Qed.

Lemma simulated_parameters_stay_in_band_witness :
  0 <= falling_source (3 * 1)%nat < 1 /\
  0 <= falling_source (3 * 1 + 1)%nat < 1 /\
  0 <= falling_source (3 * 1 + 2)%nat < 1 /\
  Forall (fun rev => 0 <= rev) (annualRevenues scenario_params) /\
  Forall (fun cost => 0 <= cost) (operatingCosts scenario_params) /\
  0 <= discountRate scenario_params /\
  let simulated := simulationParams_of falling_source scenario_params 1 in
  (forall year,
      0.8 * revenue_of scenario_params year <= revenue_of simulated year <=
      1.2 * revenue_of scenario_params year) /\
  (forall year,
      0.85 * operatingCost_of scenario_params year <= operatingCost_of simulated year <=
      1.15 * operatingCost_of scenario_params year) /\
  0.9 * discountRate scenario_params <= discountRate simulated <=
  1.1 * discountRate scenario_params.
Proof.
  assert (Hu1 : 0 <= falling_source (3 * 1)%nat < 1) by (split; reflexivity || discriminate).
  assert (Hu2 : 0 <= falling_source (3 * 1 + 1)%nat < 1)
    by (split; reflexivity || discriminate).
  assert (Hu3 : 0 <= falling_source (3 * 1 + 2)%nat < 1)
    by (split; reflexivity || discriminate).
  assert (Hrev : Forall (fun rev => 0 <= rev) (annualRevenues scenario_params))
    by (repeat constructor; simpl; lra).
  assert (Hcost : Forall (fun cost => 0 <= cost) (operatingCosts scenario_params))
    by (repeat constructor; simpl; lra).
  assert (Hrate : 0 <= discountRate scenario_params) by (simpl; lra).
  exact (conj Hu1 (conj Hu2 (conj Hu3 (conj Hrev (conj Hcost (conj Hrate
           (simulated_parameters_stay_in_band falling_source scenario_params 1
              Hu1 Hu2 Hu3 Hrev Hcost Hrate))))))).
Defined.

(** ** The income statements *)

Lemma nth_error_snoc_cases {A : Type} (a : list A) (x y : A) (k : nat) :
  nth_error (a ++ [x]) k = Some y ->
  ((k < length a)%nat /\ nth_error a k = Some y) \/ (k = length a /\ y = x).
Proof.
  intro H. destruct (Nat.lt_ge_cases k (length a)) as [Hlt|Hge].
  - left. split; [exact Hlt|]. now rewrite nth_error_app1 in H.
  - right. rewrite nth_error_app2 in H by exact Hge.
    destruct (k - length a)%nat as [|j] eqn:E.
    + simpl in H. injection H as <-. split; [lia | reflexivity].
    + simpl in H. destruct j; discriminate.
Qed.

(** After [n] passes the loop of [generateIncomeStatements] has pushed [n]
    statements, the one at index [k] for year [k + 1]. *)
Lemma income_loop_spec (params : ProjectParameters) (n : nat) :
  let statements := fold_left (fun s year => income_body params year s) (seq 1 n) [] in
  length statements = n /\
  forall k st, nth_error statements k = Some st ->
    income_body params (S k) [] = [st].
Proof.
  cbv zeta. induction n as [|n [IHlen IH]].
  - split; [reflexivity|]. intros [|k] st H; discriminate.
  - rewrite for_years_snoc.
    set (statements := fold_left (fun s year => income_body params year s) (seq 1 n) [])
      in *.
    change (income_body params (S n) statements)
      with (statements ++ income_body params (S n) []).
    split.
    + rewrite length_app, IHlen. simpl. lia.
    + intros k st H.
      change (income_body params (S n) []) with
        [hd st (income_body params (S n) [])] in H.
      apply nth_error_snoc_cases in H. destruct H as [[_ H]|[-> ->]].
      * now apply IH.
      * rewrite IHlen. reflexivity.
Qed.

Lemma generateIncomeStatements_nth (params : ProjectParameters) (k : nat)
      (st : IncomeStatement.t) :
  nth_error (generateIncomeStatements params) k = Some st ->
  (k < Z.to_nat (projectTimeline params))%nat /\ income_body params (S k) [] = [st].
Proof.
  intro H. unfold generateIncomeStatements, JS.for_years in H.
  destruct (income_loop_spec params (Z.to_nat (projectTimeline params))) as [Hlen Hspec].
  split; [|now apply Hspec].
  rewrite <- Hlen. apply nth_error_Some. congruence.
Qed.

(** X16: the income statement at index [k] is the one of year [k + 1] and
    reads that year's revenue; its cost of goods sold and operating expenses
    add up to the year's operating cost, so that gross profit less operating
    expenses is the ebitda; ebit, ebt and net income follow by subtracting
    depreciation, the interest of 10% of the initial investment, and the
    tax. *)
Theorem income_statement_lines (params : ProjectParameters) (k : nat)
        (st : IncomeStatement.t)
        (Hst : nth_error (generateIncomeStatements params) k = Some st) :
  (k < Z.to_nat (projectTimeline params))%nat /\
  IncomeStatement.year st = S k /\
  IncomeStatement.revenue st = revenue_of params (S k) /\
  IncomeStatement.costOfGoodsSold st + IncomeStatement.operatingExpenses st ==
    operatingCost_of params (S k) /\
  IncomeStatement.grossProfit st - IncomeStatement.operatingExpenses st ==
    IncomeStatement.ebitda st /\
  IncomeStatement.ebit st ==
    IncomeStatement.ebitda st - initialInvestment params * depreciationRate params /\
  IncomeStatement.ebt st == IncomeStatement.ebit st - 0.1 * initialInvestment params /\
  IncomeStatement.netIncome st == IncomeStatement.ebt st - IncomeStatement.taxExpense st.
Proof.
  apply generateIncomeStatements_nth in Hst. destruct Hst as [Hk Hst].
  unfold income_body in Hst. cbn [app] in Hst. injection Hst as <-.
  cbn [IncomeStatement.year IncomeStatement.revenue IncomeStatement.costOfGoodsSold
       IncomeStatement.operatingExpenses IncomeStatement.grossProfit IncomeStatement.ebitda
       IncomeStatement.ebit IncomeStatement.ebt IncomeStatement.netIncome
       IncomeStatement.taxExpense].
  repeat split; try exact Hk; ring.
Qed.

Lemma income_statement_lines_witness :
  exists st,
    nth_error (generateIncomeStatements two_year_params) 1 = Some st /\
    (1 < Z.to_nat (projectTimeline two_year_params))%nat /\
    IncomeStatement.year st = 2%nat /\
    IncomeStatement.revenue st = revenue_of two_year_params 2 /\
    IncomeStatement.costOfGoodsSold st + IncomeStatement.operatingExpenses st ==
      operatingCost_of two_year_params 2 /\
    IncomeStatement.grossProfit st - IncomeStatement.operatingExpenses st ==
      IncomeStatement.ebitda st /\
    IncomeStatement.ebit st ==
      IncomeStatement.ebitda st
      - initialInvestment two_year_params * depreciationRate two_year_params /\
    IncomeStatement.ebt st ==
      IncomeStatement.ebit st - 0.1 * initialInvestment two_year_params /\
    IncomeStatement.netIncome st ==
      IncomeStatement.ebt st - IncomeStatement.taxExpense st.
Proof.
  destruct (nth_error (generateIncomeStatements two_year_params) 1) as [st|] eqn:E.
  - exists st. exact (conj eq_refl (income_statement_lines two_year_params 1 st E)).
  - vm_compute in E. discriminate.
Defined.

(** X17: with a tax rate in [0,1] the tax of an income statement is charged
    on a positive ebt only and never exceeds it: net income is at most ebt,
    is not negative when ebt is positive, and equals ebt when ebt is not
    positive.  Both margins are 0 when the revenue is not positive (no
    division takes place), and otherwise they are the ebitda and the net
    income as a percentage of the revenue. *)
Theorem income_statement_tax_and_margins (params : ProjectParameters) (k : nat)
        (st : IncomeStatement.t)
        (Hst : nth_error (generateIncomeStatements params) k = Some st)
        (Htax : 0 <= taxRate params <= 1) :
  IncomeStatement.netIncome st <= IncomeStatement.ebt st /\
  (0 < IncomeStatement.ebt st -> 0 <= IncomeStatement.netIncome st) /\
  (IncomeStatement.ebt st <= 0 ->
   IncomeStatement.taxExpense st = 0 /\
   IncomeStatement.netIncome st == IncomeStatement.ebt st) /\
  (IncomeStatement.revenue st <= 0 ->
   IncomeStatement.ebitdaMargin st = 0 /\ IncomeStatement.netProfitMargin st = 0) /\
  (0 < IncomeStatement.revenue st ->
   IncomeStatement.ebitdaMargin st * IncomeStatement.revenue st ==
     IncomeStatement.ebitda st * 100 /\
   IncomeStatement.netProfitMargin st * IncomeStatement.revenue st ==
     IncomeStatement.netIncome st * 100).
Proof.
  apply generateIncomeStatements_nth in Hst. destruct Hst as [Hk Hst].
  unfold income_body in Hst. cbn [app] in Hst. injection Hst as <-.
  cbn [IncomeStatement.revenue IncomeStatement.ebitda IncomeStatement.ebt
       IncomeStatement.netIncome IncomeStatement.taxExpense
       IncomeStatement.ebitdaMargin IncomeStatement.netProfitMargin].
  set (revenue := revenue_of params (S k)).
  set (ebitda := revenue - operatingCost_of params (S k)).
  set (ebt := ebitda - initialInvestment params * depreciationRate params
              - initialInvestment params * 0.1).
  clearbody ebt ebitda revenue.
  assert (Htaxes :
    (if JS.Qlt_bool 0 ebt then ebt * taxRate params else 0) <= (if JS.Qlt_bool 0 ebt then ebt else 0)
    /\ 0 <= (if JS.Qlt_bool 0 ebt then ebt * taxRate params else 0)).
  { destruct (JS.Qlt_bool 0 ebt) eqn:E.
    - apply Qlt_bool_iff in E. split; nra.
    - split; apply Qle_refl. }
  split; [lra|]. split.
  { intro Hpos. apply Qlt_bool_iff in Hpos. rewrite Hpos in *. lra. }
  split.
  { intro Hneg. apply Qlt_bool_false_iff in Hneg. rewrite Hneg.
    split; [reflexivity | ring]. }
  split.
  { intro Hrev. apply Qlt_bool_false_iff in Hrev. rewrite Hrev. split; reflexivity. }
  intro Hrev. assert (Hne : ~ revenue == 0) by lra.
  apply Qlt_bool_iff in Hrev. rewrite Hrev. split; field; exact Hne.
Qed.

Lemma income_statement_tax_and_margins_witness :
  exists st,
    nth_error (generateIncomeStatements two_year_params) 0 = Some st /\
    0 <= taxRate two_year_params <= 1 /\
    IncomeStatement.netIncome st <= IncomeStatement.ebt st /\
    (0 < IncomeStatement.ebt st -> 0 <= IncomeStatement.netIncome st) /\
    (IncomeStatement.ebt st <= 0 ->
     IncomeStatement.taxExpense st = 0 /\
     IncomeStatement.netIncome st == IncomeStatement.ebt st) /\
    (IncomeStatement.revenue st <= 0 ->
     IncomeStatement.ebitdaMargin st = 0 /\ IncomeStatement.netProfitMargin st = 0) /\
    (0 < IncomeStatement.revenue st ->
     IncomeStatement.ebitdaMargin st * IncomeStatement.revenue st ==
       IncomeStatement.ebitda st * 100 /\
     IncomeStatement.netProfitMargin st * IncomeStatement.revenue st ==
       IncomeStatement.netIncome st * 100).
Proof.
  assert (Htax : 0 <= taxRate two_year_params <= 1) by (simpl; lra).
  destruct (nth_error (generateIncomeStatements two_year_params) 0) as [st|] eqn:E.
  - exists st.
    exact (conj eq_refl (conj Htax
             (income_statement_tax_and_margins two_year_params 0 st E Htax))).
  - vm_compute in E. discriminate.
Defined.

(** ** The balance sheets *)

Lemma num_S (n : nat) : JS.num (S n) == JS.num n + 1.
Proof.
  unfold JS.num. rewrite Nat2Z.inj_succ. unfold Z.succ.
  rewrite inject_Z_plus. reflexivity.
Qed.

(** After [n] passes of the loop of [generateBalanceSheets]: the
    accumulated depreciation is [n] times the yearly depreciation, the cash
    balance is the working capital plus the retained earnings plus the
    accumulated depreciation, and the sheet at index [k] was pushed by the
    pass for year [k + 1] from a state with these properties. *)
Lemma balance_loop_spec (params : ProjectParameters) (n : nat) :
  let s := fold_left (fun s year => balance_body params year s) (seq 1 n)
             {| bs_balanceSheets := [];
                bs_retainedEarnings := 0;
                bs_accumulatedDepreciation := 0;
                bs_cashBalance := workingCapital params |} in
  bs_accumulatedDepreciation s ==
    JS.num n * (initialInvestment params * depreciationRate params) /\
  bs_cashBalance s ==
    workingCapital params + bs_retainedEarnings s + bs_accumulatedDepreciation s /\
  length (bs_balanceSheets s) = n /\
  forall k b, nth_error (bs_balanceSheets s) k = Some b ->
    exists s0,
      bs_accumulatedDepreciation s0 ==
        JS.num k * (initialInvestment params * depreciationRate params) /\
      bs_cashBalance s0 ==
        workingCapital params + bs_retainedEarnings s0 + bs_accumulatedDepreciation s0 /\
      bs_balanceSheets (balance_body params (S k) s0) = bs_balanceSheets s0 ++ [b].
Proof.
  cbv zeta. induction n as [|n (IHdep & IHcash & IHlen & IH)].
  - cbn [seq fold_left bs_accumulatedDepreciation bs_cashBalance bs_retainedEarnings
         bs_balanceSheets length].
    change (JS.num 0) with 0.
    repeat split; try ring. intros [|k] b H; discriminate.
  - rewrite for_years_snoc.
    set (s := fold_left (fun s year => balance_body params year s) (seq 1 n) _) in *.
    split; [|split; [|split]].
    + unfold balance_body. cbn [bs_accumulatedDepreciation]. rewrite IHdep, num_S. ring.
    + unfold balance_body.
      cbn [bs_accumulatedDepreciation bs_cashBalance bs_retainedEarnings].
      rewrite IHcash. ring.
    + unfold balance_body. cbn [bs_balanceSheets].
      rewrite length_app, IHlen. simpl. lia.
    + intros k b H. unfold balance_body in H. cbn [bs_balanceSheets] in H.
      apply nth_error_snoc_cases in H. destruct H as [[_ H]|[-> ->]].
      * now apply IH.
      * exists s. rewrite IHlen. split; [exact IHdep|]. split; [exact IHcash|].
        reflexivity.
Qed.

Lemma generateBalanceSheets_nth (params : ProjectParameters) (k : nat)
      (b : BalanceSheet.t) :
  nth_error (generateBalanceSheets params) k = Some b ->
  (k < Z.to_nat (projectTimeline params))%nat /\
  exists s0,
    bs_accumulatedDepreciation s0 ==
      JS.num k * (initialInvestment params * depreciationRate params) /\
    bs_cashBalance s0 ==
      workingCapital params + bs_retainedEarnings s0 + bs_accumulatedDepreciation s0 /\
    bs_balanceSheets (balance_body params (S k) s0) = bs_balanceSheets s0 ++ [b].
Proof.
  intro H. unfold generateBalanceSheets, JS.for_years in H.
  destruct (balance_loop_spec params (Z.to_nat (projectTimeline params)))
    as (_ & _ & Hlen & Hspec).
  split; [|now apply Hspec].
  rewrite <- Hlen. apply nth_error_Some. congruence.
Qed.

Ltac balance_sheet_fields H :=
  let Hk := fresh "Hk" in
  let s0 := fresh "s0" in
  let Hdep := fresh "Hdep" in
  let Hcash := fresh "Hcash" in
  apply generateBalanceSheets_nth in H;
  destruct H as (Hk & s0 & Hdep & Hcash & H);
  unfold balance_body in H; cbn [bs_balanceSheets] in H;
  apply app_inv_head in H; injection H as H; subst.

(** X18: the balance sheet at index [k] is the one of year [k + 1].  Its
    property, plant and equipment is the initial investment, its
    accumulated depreciation is [k + 1] times the yearly depreciation, its
    net PPE is the initial investment less that amount, and its cash equals
    the working capital plus the retained earnings plus the accumulated
    depreciation. *)
Theorem balance_sheet_accumulators (params : ProjectParameters) (k : nat)
        (b : BalanceSheet.t)
        (Hb : nth_error (generateBalanceSheets params) k = Some b) :
  let depreciation := initialInvestment params * depreciationRate params in
  (k < Z.to_nat (projectTimeline params))%nat /\
  BalanceSheet.year b = S k /\
  BalanceSheet.propertyPlantEquipment b = initialInvestment params /\
  BalanceSheet.accumulatedDepreciation b == JS.num (S k) * depreciation /\
  BalanceSheet.netPPE b == initialInvestment params - JS.num (S k) * depreciation /\
  BalanceSheet.cashAndEquivalents b ==
    workingCapital params + BalanceSheet.retainedEarnings b
    + BalanceSheet.accumulatedDepreciation b.
Proof.
  cbv zeta. balance_sheet_fields Hb.
  cbn [BalanceSheet.year BalanceSheet.propertyPlantEquipment
       BalanceSheet.accumulatedDepreciation BalanceSheet.netPPE
       BalanceSheet.cashAndEquivalents BalanceSheet.retainedEarnings].
  repeat split; try assumption.
  - rewrite Hdep, num_S. ring.
  - rewrite Hdep, num_S. ring.
  - rewrite Hcash. ring.
Qed.

Lemma balance_sheet_accumulators_witness :
  exists b,
    nth_error (generateBalanceSheets two_year_params) 1 = Some b /\
    let depreciation :=
      initialInvestment two_year_params * depreciationRate two_year_params in
    (1 < Z.to_nat (projectTimeline two_year_params))%nat /\
    BalanceSheet.year b = 2%nat /\
    BalanceSheet.propertyPlantEquipment b = initialInvestment two_year_params /\
    BalanceSheet.accumulatedDepreciation b == JS.num 2 * depreciation /\
    BalanceSheet.netPPE b == initialInvestment two_year_params - JS.num 2 * depreciation /\
    BalanceSheet.cashAndEquivalents b ==
      workingCapital two_year_params + BalanceSheet.retainedEarnings b
      + BalanceSheet.accumulatedDepreciation b.
Proof.
  destruct (nth_error (generateBalanceSheets two_year_params) 1) as [b|] eqn:E.
  - exists b. exact (conj eq_refl (balance_sheet_accumulators two_year_params 1 b E)).
  - vm_compute in E. discriminate.
Defined.

(** X19: the balance sheets are not forced to balance.  In every year the
    long-term debt and the common stock add up to the initial investment,
    there is no short-term debt, and total assets exceed total liabilities
    plus total equity by exactly workingCapital + 0.15 x revenue - 0.10 x
    operating cost of that year. *)
Theorem balance_sheet_gap (params : ProjectParameters) (k : nat) (b : BalanceSheet.t)
        (Hb : nth_error (generateBalanceSheets params) k = Some b) :
  BalanceSheet.longTermDebt b + BalanceSheet.commonStock b == initialInvestment params /\
  BalanceSheet.shortTermDebt b = 0 /\
  BalanceSheet.totalAssets b
  - (BalanceSheet.totalLiabilities b + BalanceSheet.totalEquity b) ==
  workingCapital params + 0.15 * revenue_of params (S k)
  - 0.10 * operatingCost_of params (S k).
Proof.
  balance_sheet_fields Hb.
  cbn [BalanceSheet.longTermDebt BalanceSheet.commonStock BalanceSheet.shortTermDebt
       BalanceSheet.totalAssets BalanceSheet.totalLiabilities BalanceSheet.totalEquity].
  repeat split; try ring.
  rewrite Hcash. ring.
Qed.

Lemma balance_sheet_gap_witness :
  exists b,
    nth_error (generateBalanceSheets two_year_params) 1 = Some b /\
    BalanceSheet.longTermDebt b + BalanceSheet.commonStock b ==
      initialInvestment two_year_params /\
    BalanceSheet.shortTermDebt b = 0 /\
    BalanceSheet.totalAssets b
    - (BalanceSheet.totalLiabilities b + BalanceSheet.totalEquity b) ==
    workingCapital two_year_params + 0.15 * revenue_of two_year_params 2
    - 0.10 * operatingCost_of two_year_params 2.
Proof.
  destruct (nth_error (generateBalanceSheets two_year_params) 1) as [b|] eqn:E.
  - exists b. exact (conj eq_refl (balance_sheet_gap two_year_params 1 b E)).
  - vm_compute in E. discriminate.
Defined.

(** X20: the three ratios of a balance sheet never divide by zero.  The
    current ratio is total current assets over total current liabilities
    when the latter are positive and 0 otherwise; the debt-to-equity ratio
    and the return on equity (that year's revenue - cost - depreciation, in
    percent of the equity) are defined by the total equity when it is
    positive and are 0 otherwise. *)
Theorem balance_sheet_ratios (params : ProjectParameters) (k : nat) (b : BalanceSheet.t)
        (Hb : nth_error (generateBalanceSheets params) k = Some b) :
  (0 < BalanceSheet.totalCurrentLiabilities b ->
   BalanceSheet.currentRatio b * BalanceSheet.totalCurrentLiabilities b ==
   BalanceSheet.totalCurrentAssets b) /\
  (BalanceSheet.totalCurrentLiabilities b <= 0 -> BalanceSheet.currentRatio b = 0) /\
  (0 < BalanceSheet.totalEquity b ->
   BalanceSheet.debtToEquityRatio b * BalanceSheet.totalEquity b ==
     BalanceSheet.totalLiabilities b /\
   BalanceSheet.returnOnEquity b * BalanceSheet.totalEquity b ==
     (revenue_of params (S k) - operatingCost_of params (S k)
      - initialInvestment params * depreciationRate params) * 100) /\
  (BalanceSheet.totalEquity b <= 0 ->
   BalanceSheet.debtToEquityRatio b = 0 /\ BalanceSheet.returnOnEquity b = 0).
Proof.
  balance_sheet_fields Hb.
  cbn [BalanceSheet.totalCurrentLiabilities BalanceSheet.currentRatio
       BalanceSheet.totalCurrentAssets BalanceSheet.totalEquity
       BalanceSheet.debtToEquityRatio BalanceSheet.totalLiabilities
       BalanceSheet.returnOnEquity].
  set (liabilities := operatingCost_of params (S k) * 0.25
                      + operatingCost_of params (S k) * 0.1).
  set (equity := initialInvestment params * 0.4
                 + (bs_retainedEarnings s0
                    + (revenue_of params (S k) - operatingCost_of params (S k)
                       - initialInvestment params * depreciationRate params))).
  clearbody liabilities equity.
  split; [|split; [|split]].
  - intro H. assert (Hne : ~ liabilities == 0) by lra.
    apply Qlt_bool_iff in H. rewrite H. field. exact Hne.
  - intro H. apply Qlt_bool_false_iff in H. rewrite H. reflexivity.
  - intro H. assert (Hne : ~ equity == 0) by lra.
    apply Qlt_bool_iff in H. rewrite H. split; field; exact Hne.
  - intro H. apply Qlt_bool_false_iff in H. rewrite H. split; reflexivity.
Qed.

Lemma balance_sheet_ratios_witness :
  exists b,
    nth_error (generateBalanceSheets two_year_params) 0 = Some b /\
    (0 < BalanceSheet.totalCurrentLiabilities b ->
     BalanceSheet.currentRatio b * BalanceSheet.totalCurrentLiabilities b ==
     BalanceSheet.totalCurrentAssets b) /\
    (BalanceSheet.totalCurrentLiabilities b <= 0 -> BalanceSheet.currentRatio b = 0) /\
    (0 < BalanceSheet.totalEquity b ->
     BalanceSheet.debtToEquityRatio b * BalanceSheet.totalEquity b ==
       BalanceSheet.totalLiabilities b /\
     BalanceSheet.returnOnEquity b * BalanceSheet.totalEquity b ==
       (revenue_of two_year_params 1 - operatingCost_of two_year_params 1
        - initialInvestment two_year_params * depreciationRate two_year_params) * 100) /\
    (BalanceSheet.totalEquity b <= 0 ->
     BalanceSheet.debtToEquityRatio b = 0 /\ BalanceSheet.returnOnEquity b = 0).
Proof.
  destruct (nth_error (generateBalanceSheets two_year_params) 0) as [b|] eqn:E.
  - exists b. exact (conj eq_refl (balance_sheet_ratios two_year_params 0 b E)).
  - vm_compute in E. discriminate.
Defined.

(** ** More on the cash-flow statements and the report summary *)

(** X21: in every cash-flow statement the depreciation added back cancels
    the depreciation charged, so the operating cash flow is 0.85 x revenue
    - 0.95 x operating cost of the year whatever the depreciation rate;
    capital expenditure is the whole initial investment in year 1 and 5% of
    it afterwards; dividends are 30% of a positive net income, never
    negative, and 0 on a loss. *)
Theorem cash_flow_statement_lines (params : ProjectParameters) (k : nat)
        (s : CashFlowStatement.t)
        (Hs : nth_error (generateCashFlowStatements params) k = Some s) :
  CashFlowStatement.year s = S k /\
  CashFlowStatement.netOperatingCashFlow s ==
    0.85 * revenue_of params (S k) - 0.95 * operatingCost_of params (S k) /\
  CashFlowStatement.capitalExpenditures s ==
    (if Nat.eqb k 0 then 1 else 0.05) * initialInvestment params /\
  0 <= CashFlowStatement.dividends s /\
  (0 < CashFlowStatement.netIncome s ->
   CashFlowStatement.dividends s == 0.3 * CashFlowStatement.netIncome s) /\
  (CashFlowStatement.netIncome s <= 0 -> CashFlowStatement.dividends s = 0).
Proof.
  apply generateCashFlowStatements_nth in Hs. subst s. unfold cashflow_statement.
  cbn [CashFlowStatement.year CashFlowStatement.netOperatingCashFlow
       CashFlowStatement.capitalExpenditures CashFlowStatement.dividends
       CashFlowStatement.netIncome].
  set (netIncome := revenue_of params (S k) - operatingCost_of params (S k)
                    - initialInvestment params * depreciationRate params).
  split; [reflexivity|]. split; [unfold netIncome; ring|].
  split; [destruct k; cbn [Nat.eqb]; ring|].
  clearbody netIncome.
  destruct (JS.Qlt_bool 0 netIncome) eqn:E.
  - apply Qlt_bool_iff in E. repeat split; intros; lra.
  - apply Qlt_bool_false_iff in E. repeat split; intros; lra.
Qed.

Lemma cash_flow_statement_lines_witness :
  exists s,
    nth_error (generateCashFlowStatements two_year_params) 1 = Some s /\
    CashFlowStatement.year s = 2%nat /\
    CashFlowStatement.netOperatingCashFlow s ==
      0.85 * revenue_of two_year_params 2 - 0.95 * operatingCost_of two_year_params 2 /\
    CashFlowStatement.capitalExpenditures s ==
      (if Nat.eqb 1 0 then 1 else 0.05) * initialInvestment two_year_params /\
    0 <= CashFlowStatement.dividends s /\
    (0 < CashFlowStatement.netIncome s ->
     CashFlowStatement.dividends s == 0.3 * CashFlowStatement.netIncome s) /\
    (CashFlowStatement.netIncome s <= 0 -> CashFlowStatement.dividends s = 0).
Proof.
  destruct (nth_error (generateCashFlowStatements two_year_params) 1) as [s|] eqn:E.
  - exists s. exact (conj eq_refl (cash_flow_statement_lines two_year_params 1 s E)).
  - vm_compute in E. discriminate.
Defined.

Lemma ending_is_beginning_plus_net (params : ProjectParameters) (year : nat) (b : Q) :
  CashFlowStatement.endingCashBalance (cashflow_statement params year b) =
  b + CashFlowStatement.netCashFlow (cashflow_statement params year b).
Proof. reflexivity. Qed.

Lemma beginning_of_is_running_total (params : ProjectParameters) (n : nat) :
  beginning_of params n ==
  workingCapital params
  + JS.reduce (fun sum stmt _ => sum + CashFlowStatement.netCashFlow stmt)
              (map (fun k => cashflow_statement params (S k) (beginning_of params k))
                   (seq 0 n)) 0.
Proof.
  induction n as [|n IH].
  - simpl. unfold JS.reduce. simpl. ring.
  - rewrite (seq_S n 0), map_app. cbn [map Nat.add]. rewrite reduce_snoc.
    cbn [beginning_of]. rewrite ending_is_beginning_plus_net.
    set (net := CashFlowStatement.netCashFlow
                  (cashflow_statement params (S n) (beginning_of params n))).
    clearbody net. lra.
Qed.

Lemma cumulativeCashFlow_generateFinancialReports (params : ProjectParameters) :
  cumulativeCashFlow (summary (generateFinancialReports params)) =
  JS.reduce (fun sum stmt _ => sum + CashFlowStatement.netCashFlow stmt)
            (generateCashFlowStatements params) 0.
Proof. reflexivity. Qed.

(** X22: the cash-flow statements and the summary agree: for a timeline of
    at least one year, the ending cash balance of the last cash-flow
    statement is the working capital plus the summary's cumulative cash
    flow. *)
Theorem ending_cash_is_working_capital_plus_cumulative (params : ProjectParameters)
        (Htimeline : (1 <= projectTimeline params)%Z) :
  exists s,
    nth_error (cashFlowStatements (generateFinancialReports params))
              (Z.to_nat (projectTimeline params) - 1) = Some s /\
    CashFlowStatement.endingCashBalance s ==
    workingCapital params + cumulativeCashFlow (summary (generateFinancialReports params)).
Proof.
  rewrite cumulativeCashFlow_generateFinancialReports,
    cashFlowStatements_generateFinancialReports, generateCashFlowStatements_shape.
  destruct (Z.to_nat (projectTimeline params)) as [|n] eqn:En; [lia|].
  replace (S n - 1)%nat with n by lia.
  exists (cashflow_statement params (S n) (beginning_of params n)). split.
  - rewrite nth_error_map, nth_error_seq.
    destruct (Nat.ltb_spec n (S n)); [reflexivity | lia].
  - rewrite <- (beginning_of_is_running_total params (S n)). reflexivity.
Qed.

Lemma ending_cash_is_working_capital_plus_cumulative_witness :
  (1 <= projectTimeline two_year_params)%Z /\
  exists s,
    nth_error (cashFlowStatements (generateFinancialReports two_year_params))
              (Z.to_nat (projectTimeline two_year_params) - 1) = Some s /\
    CashFlowStatement.endingCashBalance s ==
    workingCapital two_year_params
    + cumulativeCashFlow (summary (generateFinancialReports two_year_params)).
Proof.
  assert (H : (1 <= projectTimeline two_year_params)%Z) by (simpl; lia).
  exact (conj H (ending_cash_is_working_capital_plus_cumulative two_year_params H)).
Defined.

Lemma income_revenues (params : ProjectParameters) (n : nat) :
  map IncomeStatement.revenue
      (fold_left (fun s year => income_body params year s) (seq 1 n) []) =
  map (revenue_of params) (seq 1 n).
Proof.
  induction n as [|n IH]; [reflexivity|].
  rewrite for_years_snoc, seq_S, !map_app, <- IH. unfold income_body at 1.
  rewrite map_app. reflexivity.
Qed.

Lemma reduce_from_sum_map {A : Type} (f : A -> Q) (a : list A) (k j : nat) (acc : Q) :
  JS.reduce_from (fun sum x _ => sum + f x) a k acc =
  JS.reduce_from (fun sum x _ => sum + x) (map f a) j acc.
Proof.
  revert k j acc. induction a as [|x a IH]; intros k j acc; simpl;
    [reflexivity | apply IH].
Qed.

Lemma reduce_sum_map {A : Type} (f : A -> Q) (a : list A) :
  JS.reduce (fun sum x _ => sum + f x) a 0 = sum_list (map f a).
Proof. unfold sum_list, JS.reduce. apply reduce_from_sum_map. Qed.

Lemma generateBalanceSheets_length (params : ProjectParameters) :
  length (generateBalanceSheets params) = Z.to_nat (projectTimeline params).
Proof.
  unfold generateBalanceSheets, JS.for_years.
  apply (balance_loop_spec params (Z.to_nat (projectTimeline params))).
Qed.

(** X23: for a timeline of at least one year the report holds one income
    statement, one balance sheet and one cash-flow statement per year, the
    summary's total revenue is the sum of the revenues read for the years
    1..timeline, and the summary's total assets, liabilities and equity are
    those of the last balance sheet. *)
Theorem report_summary (params : ProjectParameters)
        (Htimeline : (1 <= projectTimeline params)%Z) :
  let r := generateFinancialReports params in
  let n := Z.to_nat (projectTimeline params) in
  length (incomeStatements r) = n /\
  length (balanceSheets r) = n /\
  length (cashFlowStatements r) = n /\
  totalRevenue (summary r) = sum_list (map (revenue_of params) (seq 1 n)) /\
  exists b,
    nth_error (balanceSheets r) (n - 1) = Some b /\
    totalAssets (summary r) == BalanceSheet.totalAssets b /\
    totalLiabilities (summary r) == BalanceSheet.totalLiabilities b /\
    totalEquity (summary r) == BalanceSheet.totalEquity b.
Proof.
  cbv zeta. unfold generateFinancialReports.
  cbn [incomeStatements balanceSheets cashFlowStatements summary totalRevenue totalAssets
       totalLiabilities totalEquity].
  split; [apply (income_loop_spec params (Z.to_nat (projectTimeline params)))|].
  split; [apply generateBalanceSheets_length|].
  split; [now rewrite generateCashFlowStatements_shape, length_map, length_seq|].
  split.
  { rewrite reduce_sum_map. unfold generateIncomeStatements, JS.for_years.
    now rewrite income_revenues. }
  unfold last_field. rewrite generateBalanceSheets_length.
  destruct (nth_error (generateBalanceSheets params)
                      (Z.to_nat (projectTimeline params) - 1)) as [b|] eqn:E.
  - exists b. cbn [option_map]. rewrite !or_zero_Some. repeat split.
  - apply nth_error_None in E. rewrite generateBalanceSheets_length in E. lia.
Qed.

Lemma report_summary_witness :
  (1 <= projectTimeline two_year_params)%Z /\
  let r := generateFinancialReports two_year_params in
  let n := Z.to_nat (projectTimeline two_year_params) in
  length (incomeStatements r) = n /\
  length (balanceSheets r) = n /\
  length (cashFlowStatements r) = n /\
  totalRevenue (summary r) = sum_list (map (revenue_of two_year_params) (seq 1 n)) /\
  exists b,
    nth_error (balanceSheets r) (n - 1) = Some b /\
    totalAssets (summary r) == BalanceSheet.totalAssets b /\
    totalLiabilities (summary r) == BalanceSheet.totalLiabilities b /\
    totalEquity (summary r) == BalanceSheet.totalEquity b.
Proof.
  assert (H : (1 <= projectTimeline two_year_params)%Z) by (simpl; lia).
  exact (conj H (report_summary two_year_params H)).
Defined.

(** X24: with a timeline below 1 the report is empty: no income statement,
    no balance sheet, no cash-flow statement, and every total of the summary
    is 0 (the totals taken from the last balance sheet fall back to 0). *)
Theorem report_without_years (params : ProjectParameters)
        (Htimeline : (projectTimeline params <= 0)%Z) :
  generateFinancialReports params =
  {| incomeStatements := [];
     balanceSheets := [];
     cashFlowStatements := [];
     summary := {| totalRevenue := 0; totalNetIncome := 0; totalAssets := 0;
                   totalLiabilities := 0; totalEquity := 0; cumulativeCashFlow := 0 |} |}.
Proof.
  unfold generateFinancialReports, generateIncomeStatements, generateBalanceSheets,
    generateCashFlowStatements, JS.for_years.
  replace (Z.to_nat (projectTimeline params)) with 0%nat by lia.
  reflexivity.
Qed.

Lemma report_without_years_witness :
  (projectTimeline zero_timeline_params <= 0)%Z /\
  generateFinancialReports zero_timeline_params =
  {| incomeStatements := [];
     balanceSheets := [];
     cashFlowStatements := [];
     summary := {| totalRevenue := 0; totalNetIncome := 0; totalAssets := 0;
                   totalLiabilities := 0; totalEquity := 0; cumulativeCashFlow := 0 |} |}.
Proof.
  assert (H : (projectTimeline zero_timeline_params <= 0)%Z) by (simpl; lia).
  exact (conj H (report_without_years zero_timeline_params H)).
Defined.

(** ** The parameters form *)

Lemma set_error_not_empty (errors : Form.Errors) (key : Form.ErrorKey)
      (message : String.string) :
  Form.set_error errors key message <> [].
Proof.
  unfold Form.set_error.
  destruct (existsb (fun entry => Form.key_eqb key (fst entry)) errors) eqn:E.
  - destruct errors; [discriminate E | discriminate].
  - destruct errors; discriminate.
Qed.

Lemma check_empty_iff (c : bool) (errors : Form.Errors) (key : Form.ErrorKey)
      (message : String.string) :
  (if c then Form.set_error errors key message else errors) = [] <->
  c = false /\ errors = [].
Proof.
  destruct c; split.
  - intro H. exfalso. exact (set_error_not_empty _ _ _ H).
  - intros [H _]. discriminate.
  - auto.
  - tauto.
Qed.

Lemma each_entry_empty_iff (key : nat -> Form.ErrorKey) (message : String.string)
      (a : list Q) (k : nat) (errors : Form.Errors) :
  JS.reduce_from (fun errors v index =>
                    if JS.Qlt_bool v 0
                    then Form.set_error errors (key index) message
                    else errors) a k errors = [] <->
  errors = [] /\ Forall (fun v => 0 <= v) a.
Proof.
  revert k errors. induction a as [|v a IH]; intros k errors; simpl.
  - split; [auto | tauto].
  - rewrite IH, check_empty_iff, Qlt_bool_false_iff. split.
    + intros [[Hv He] Ha]. auto.
    + intros [He Ha]. inversion Ha; subst. auto.
Qed.

Lemma validate_empty_iff (params : ProjectParameters) :
  Form.validate params = [] <->
  0 < initialInvestment params /\
  (1 <= projectTimeline params <= 20)%Z /\
  0 <= taxRate params <= 1 /\
  0 <= discountRate params <= 1 /\
  0 <= depreciationRate params <= 1 /\
  0 <= terminalGrowthRate params <= 0.1 /\
  Forall (fun revenue => 0 <= revenue) (annualRevenues params) /\
  Forall (fun cost => 0 <= cost) (operatingCosts params).
Proof.
  unfold Form.validate, JS.reduce. cbv zeta.
  rewrite !each_entry_empty_iff, !check_empty_iff, !orb_false_iff, !Qlt_bool_false_iff,
    !Z.ltb_ge.
  assert (Hinv : Qle_bool (initialInvestment params) 0 = false <->
                 0 < initialInvestment params).
  { rewrite <- Qlt_bool_iff. unfold JS.Qlt_bool.
    destruct (Qle_bool (initialInvestment params) 0); simpl; split; congruence. }
  rewrite Hinv. tauto.
Qed.

Lemma validate_empty_iff_valid (params : ProjectParameters) :
  Form.isFormValid params = true <-> Form.validate params = [].
Proof.
  unfold Form.isFormValid, Form.keys.
  rewrite Nat.eqb_eq, length_map. split.
  - apply length_zero_iff_nil.
  - intros ->. reflexivity.
Qed.

(** X25: the form reports itself valid exactly when the initial investment
    is positive, the timeline is between 1 and 20 years, the tax, discount
    and depreciation rates lie in [0,1], the terminal growth rate lies in
    [0,0.1], and no revenue or cost entry is negative.  Working capital and
    terminal value are not checked. *)
Theorem form_validity (params : ProjectParameters) :
  Form.isFormValid params = true <->
  0 < initialInvestment params /\
  (1 <= projectTimeline params <= 20)%Z /\
  0 <= taxRate params <= 1 /\
  0 <= discountRate params <= 1 /\
  0 <= depreciationRate params <= 1 /\
  0 <= terminalGrowthRate params <= 0.1 /\
  Forall (fun revenue => 0 <= revenue) (annualRevenues params) /\
  Forall (fun cost => 0 <= cost) (operatingCosts params).
Proof.
  rewrite <- validate_empty_iff. unfold Form.isFormValid, Form.keys.
  rewrite Nat.eqb_eq, length_map. split.
  - apply length_zero_iff_nil.
  - intros ->. reflexivity.
Qed.

(** The NPV ordering of the scenarios, for a tax rate of at most 1 and a
    discount factor above 0. *)
Lemma scenario_npv_chain (params : ProjectParameters) :
  Forall (fun rev => 0 <= rev) (annualRevenues params) ->
  Forall (fun cost => 0 <= cost) (operatingCosts params) ->
  taxRate params <= 1 ->
  0 < 1 + discountRate params ->
  calculateNPV (calculateFreeCashFlows (worstCaseParams params)) (discountRate params) <=
  calculateNPV (calculateFreeCashFlows params) (discountRate params) /\
  calculateNPV (calculateFreeCashFlows params) (discountRate params) <=
  calculateNPV (calculateFreeCashFlows (bestCaseParams params)) (discountRate params).
Proof.
  intros Hrev Hcost Htax Hr.
  split; apply calculateNPV_monotone; try exact Hr;
    apply calculateFreeCashFlows_monotone; try reflexivity; try exact Htax; intro year;
    unfold revenue_of, operatingCost_of, bestCaseParams, worstCaseParams, with_inputs;
    cbn [annualRevenues operatingCosts];
    first [ apply or_zero_scaled_up; [assumption | lra]
          | apply or_zero_scaled_down; [assumption | lra] ].
Qed.

(** X26: parameters that the form reports valid lie in the documented
    domain of the calculator, and for them the scenario analysis is ordered:
    worstCase.npv <= baseCase.npv <= bestCase.npv. *)
Theorem valid_form_parameters_are_ordered (params : ProjectParameters)
        (Hvalid : Form.isFormValid params = true) :
  in_documented_domain params /\
  let s := calculateScenarioAnalysis params in
  npv (worstCase s) <= npv (baseCase s) /\ npv (baseCase s) <= npv (bestCase s).
Proof.
  apply validate_empty_iff_valid, validate_empty_iff in Hvalid.
  destruct Hvalid as (HI & HT & Htax & Hrate & Hdep & Hg & Hrev & Hcost).
  split.
  - unfold in_documented_domain. repeat split; try tauto; lia.
  - cbv zeta. unfold calculateScenarioAnalysis. cbn [bestCase baseCase worstCase].
    rewrite !npv_calculateMetrics.
    change (discountRate (bestCaseParams params)) with (discountRate params).
    change (discountRate (worstCaseParams params)) with (discountRate params).
    apply scenario_npv_chain; try assumption; lra.
Qed.

Lemma valid_form_parameters_are_ordered_witness :
  Form.isFormValid scenario_params = true /\
  in_documented_domain scenario_params /\
  let s := calculateScenarioAnalysis scenario_params in
  npv (worstCase s) <= npv (baseCase s) /\ npv (baseCase s) <= npv (bestCase s).
Proof.
  assert (H : Form.isFormValid scenario_params = true) by (vm_compute; reflexivity).
  exact (conj H (valid_form_parameters_are_ordered scenario_params H)).
Defined.

Lemma slice_to_exact (a : list Q) (x : Q) :
  Form.slice_to (a ++ [x]) (Z.of_nat (length a)) = a.
Proof.
  unfold Form.slice_to.
  destruct (Z.ltb_spec (Z.of_nat (length a)) 0); [lia|].
  rewrite Nat2Z.id. apply firstn_app_exact.
Qed.

(** X27: when the form holds one revenue and one cost entry per year of a
    timeline of at least one year, adding a year and then removing a year
    gives back the parameters unchanged. *)
Theorem removeYear_undoes_addYear (params : ProjectParameters)
        (Hshape : Form.one_entry_per_year params) :
  Form.removeYear (Form.addYear params) = params.
Proof.
  destruct Hshape as (HT & Hrev & Hcost).
  unfold Form.removeYear, Form.addYear, Form.with_years.
  cbn [projectTimeline annualRevenues operatingCosts initialInvestment taxRate
       discountRate depreciationRate workingCapital terminalGrowthRate terminalValue].
  destruct (Z.ltb_spec 1 (projectTimeline params + 1)); [|lia].
  replace (projectTimeline params + 1 - 1)%Z with (projectTimeline params) by lia.
  rewrite <- Hrev at 2. rewrite slice_to_exact.
  rewrite <- Hcost at 2. rewrite slice_to_exact.
  destruct params; reflexivity.
Qed.

Lemma removeYear_undoes_addYear_witness :
  Form.one_entry_per_year Form.initial_params /\
  Form.removeYear (Form.addYear Form.initial_params) = Form.initial_params.
Proof.
  assert (H : Form.one_entry_per_year Form.initial_params)
    by (unfold Form.one_entry_per_year; simpl; lia).
  exact (conj H (removeYear_undoes_addYear Form.initial_params H)).
Defined.

(** X28: the two handlers keep the form in shape: from parameters with one
    revenue and one cost entry per year and at least one year, [addYear]
    gives parameters of the same shape with one more year, and [removeYear]
    gives parameters of the same shape with one year less, except at one
    year, where it changes nothing. *)
Theorem handlers_keep_one_entry_per_year (params : ProjectParameters)
        (Hshape : Form.one_entry_per_year params) :
  Form.one_entry_per_year (Form.addYear params) /\
  projectTimeline (Form.addYear params) = (projectTimeline params + 1)%Z /\
  Form.one_entry_per_year (Form.removeYear params) /\
  (projectTimeline params = 1%Z -> Form.removeYear params = params) /\
  ((1 < projectTimeline params)%Z ->
   projectTimeline (Form.removeYear params) = (projectTimeline params - 1)%Z).
Proof.
  pose proof Hshape as (HT & Hrev & Hcost).
  unfold Form.one_entry_per_year, Form.removeYear, Form.addYear, Form.with_years.
  cbn [projectTimeline annualRevenues operatingCosts].
  rewrite !length_app. cbn [length].
  split; [lia|]. split; [reflexivity|].
  destruct (Z.ltb_spec 1 (projectTimeline params)) as [Hgt|Hle].
  - cbn [projectTimeline annualRevenues operatingCosts]. unfold Form.slice_to.
    destruct (Z.ltb_spec (projectTimeline params - 1) 0); [lia|].
    rewrite !length_firstn.
    repeat split; try lia.
  - repeat split; try assumption; lia.
Qed.

Lemma handlers_keep_one_entry_per_year_witness :
  Form.one_entry_per_year Form.initial_params /\
  Form.one_entry_per_year (Form.addYear Form.initial_params) /\
  projectTimeline (Form.addYear Form.initial_params) =
    (projectTimeline Form.initial_params + 1)%Z /\
  Form.one_entry_per_year (Form.removeYear Form.initial_params) /\
  (projectTimeline Form.initial_params = 1%Z ->
   Form.removeYear Form.initial_params = Form.initial_params) /\
  ((1 < projectTimeline Form.initial_params)%Z ->
   projectTimeline (Form.removeYear Form.initial_params) =
   (projectTimeline Form.initial_params - 1)%Z).
Proof.
  assert (H : Form.one_entry_per_year Form.initial_params)
    by (unfold Form.one_entry_per_year; simpl; lia).
  exact (conj H (handlers_keep_one_entry_per_year Form.initial_params H)).
Defined.

Lemma or_zero_idempotent (x : option Q) :
  JS.or_zero (Some (JS.or_zero x)) = JS.or_zero x.
Proof.
  destruct x as [v|]; [|reflexivity]. simpl.
  destruct (Qeq_bool v 0) eqn:E; simpl; [reflexivity | now rewrite E].
Qed.

(** X29: the year that [addYear] appends repeats the last year: in a form
    with one entry per year, the calculator reads for the new year the
    revenue and cost it read for the previous last year, and reads the
    earlier years as before. *)
Theorem addYear_repeats_last_year (params : ProjectParameters)
        (Hshape : Form.one_entry_per_year params) :
  let last := Z.to_nat (projectTimeline params) in
  revenue_of (Form.addYear params) (S last) = revenue_of params last /\
  operatingCost_of (Form.addYear params) (S last) = operatingCost_of params last /\
  forall year, (1 <= year <= last)%nat ->
    revenue_of (Form.addYear params) year = revenue_of params year /\
    operatingCost_of (Form.addYear params) year = operatingCost_of params year.
Proof.
  destruct Hshape as (HT & Hrev & Hcost). cbv zeta.
  assert (Hr : length (annualRevenues params) = Z.to_nat (projectTimeline params)) by lia.
  assert (Hc : length (operatingCosts params) = Z.to_nat (projectTimeline params)) by lia.
  unfold revenue_of, operatingCost_of, Form.addYear, Form.with_years, Form.last_or_zero.
  cbn [annualRevenues operatingCosts].
  rewrite !index_pred, <- Hr at 1. rewrite nth_error_app2, Nat.sub_diag by lia.
  cbn [nth_error]. rewrite Hr, Z2Nat.id, or_zero_idempotent by lia.
  rewrite <- Hc at 1. rewrite nth_error_app2, Nat.sub_diag by lia.
  cbn [nth_error]. rewrite Hc, Z2Nat.id, or_zero_idempotent by lia.
  repeat split.
  - destruct year as [|y]; [lia|]. rewrite !index_pred, nth_error_app1 by lia. reflexivity.
  - destruct year as [|y]; [lia|]. rewrite !index_pred, nth_error_app1 by lia. reflexivity.
Qed.

Lemma addYear_repeats_last_year_witness :
  Form.one_entry_per_year two_year_params /\
  let last := Z.to_nat (projectTimeline two_year_params) in
  revenue_of (Form.addYear two_year_params) (S last) = revenue_of two_year_params last /\
  operatingCost_of (Form.addYear two_year_params) (S last) =
    operatingCost_of two_year_params last /\
  forall year, (1 <= year <= last)%nat ->
    revenue_of (Form.addYear two_year_params) year = revenue_of two_year_params year /\
    operatingCost_of (Form.addYear two_year_params) year =
      operatingCost_of two_year_params year.
Proof.
  assert (H : Form.one_entry_per_year two_year_params)
    by (unfold Form.one_entry_per_year; simpl; lia).
  exact (conj H (addYear_repeats_last_year two_year_params H)).
Defined.

(** ** The ratios of the metrics *)

Lemma ebitdaMargin_calculateMetrics (params : ProjectParameters) :
  ebitdaMargin (calculateMetrics params) =
  calculateEBITDAMargin
    ((sum_list (annualRevenues params) - sum_list (operatingCosts params))
     / inject_Z (projectTimeline params))
    (sum_list (annualRevenues params) / inject_Z (projectTimeline params)).
Proof. reflexivity. Qed.

(** X30: the two ratios of the metrics, for a timeline other than 0.  The
    return on investment is 0 when the initial investment is 0 and
    otherwise the total of all revenue entries less all cost entries less
    the investment, in percent of the investment.  The EBITDA margin is 0
    when the revenues total 0 and otherwise total revenue less total cost in
    percent of total revenue: the division of both averages by the timeline
    cancels. *)
Theorem metrics_ratios (params : ProjectParameters)
        (Htimeline : projectTimeline params <> 0%Z) :
  let m := calculateMetrics params in
  let totalRevenue := sum_list (annualRevenues params) in
  let totalCosts := sum_list (operatingCosts params) in
  (initialInvestment params == 0 -> roi m = 0) /\
  (~ initialInvestment params == 0 ->
   roi m * initialInvestment params ==
   (totalRevenue - totalCosts - initialInvestment params) * 100) /\
  (totalRevenue == 0 -> ebitdaMargin m = 0) /\
  (~ totalRevenue == 0 ->
   ebitdaMargin m * totalRevenue == (totalRevenue - totalCosts) * 100).
Proof.
  cbv zeta. rewrite roi_calculateMetrics, ebitdaMargin_calculateMetrics.
  unfold calculateROI, calculateEBITDAMargin.
  assert (HT : ~ inject_Z (projectTimeline params) == 0).
  { intro H. apply Htimeline. change 0 with (inject_Z 0) in H.
    apply inject_Z_injective. exact H. }
  set (t := inject_Z (projectTimeline params)) in *.
  set (R := sum_list (annualRevenues params)).
  set (C := sum_list (operatingCosts params)).
  clearbody t R C.
  split; [|split; [|split]].
  - intro H. apply Qeq_bool_iff in H. rewrite H. reflexivity.
  - intro H. destruct (Qeq_bool (initialInvestment params) 0) eqn:E.
    + apply Qeq_bool_iff in E. contradiction.
    + field. exact H.
  - intro H. assert (H0 : R / t == 0) by (rewrite H; field; exact HT).
    apply Qeq_bool_iff in H0. rewrite H0. reflexivity.
  - intro H. destruct (Qeq_bool (R / t) 0) eqn:E.
    + apply Qeq_bool_iff in E. exfalso. apply H.
      assert (HR : R == R / t * t) by (field; exact HT).
      rewrite HR, E. ring.
    + field. split; assumption.
Qed.

Lemma metrics_ratios_witness :
  projectTimeline scenario_params <> 0%Z /\
  let m := calculateMetrics scenario_params in
  let totalRevenue := sum_list (annualRevenues scenario_params) in
  let totalCosts := sum_list (operatingCosts scenario_params) in
  (initialInvestment scenario_params == 0 -> roi m = 0) /\
  (~ initialInvestment scenario_params == 0 ->
   roi m * initialInvestment scenario_params ==
   (totalRevenue - totalCosts - initialInvestment scenario_params) * 100) /\
  (totalRevenue == 0 -> ebitdaMargin m = 0) /\
  (~ totalRevenue == 0 ->
   ebitdaMargin m * totalRevenue == (totalRevenue - totalCosts) * 100).
Proof.
  assert (H : projectTimeline scenario_params <> 0%Z) by (simpl; discriminate).
  exact (conj H (metrics_ratios scenario_params H)).
Defined.
